(** * Hotel reservation engine (HotelManagement.py)

    A shallow embedding of the room state machine, the reservation object
    and the front-desk coordinator [HotelManagementSystem], with the Python
    object store made explicit, followed by the properties of the
    reservation engine that the specification states about them. *)

From Stdlib Require Import ZArith NArith Ascii String.
From stdpp Require Import gmap strings list fin_maps.

Open Scope string_scope.

(** ** Enumerations *)

Inductive RoomType := SINGLE | DOUBLE | DELUXE | SUITE.

Inductive RoomStatus := AVAILABLE | BOOKED | OCCUPIED.

Inductive ReservationStatus := CONFIRMED | CANCELLED.

#[global] Instance RoomStatus_eq_dec : EqDecision RoomStatus.
Proof. solve_decision. Defined.

#[global] Instance ReservationStatus_eq_dec : EqDecision ReservationStatus.
Proof. solve_decision. Defined.

(** ** Exceptions and results

    Every exception the engine raises itself is a [ValueError] carrying a
    message.  [NoSuchObject] stands for following a reference that names no
    object of the store; Python references cannot dangle, and the stores of
    every reachable world are closed under the references they hold. *)

Inductive exn :=
  | ValueError (msg : string)
  | NoSuchObject.

Inductive outcome (A : Type) :=
  | Returned (a : A)
  | Raised (e : exn).

Arguments Returned {A} a.
Arguments Raised {A} e.

(** References into the two object stores. *)
Abbreviation room_ref := nat (only parsing).
Abbreviation res_ref := nat (only parsing).

(** ** Guest: an immutable value object *)

Record Guest := mkGuest {
  guest_id : string;
  guest_name : string;
  guest_email : string;
  guest_phone_number : string
}.

(** ** Reservation identifiers *)

Definition hex_digit (n : N) : ascii :=
  ascii_of_N (if (n <? 10)%N then 48 + n else 55 + n)%N.

Fixpoint hex_digits (k : nat) (n : N) (acc : string) : string :=
  match k with
  | O => acc
  | S k' => hex_digits k' (n / 16)%N (String (hex_digit (n mod 16)%N) acc)
  end.

(** [uuid] is the 128-bit integer drawn by [uuid.uuid4()]; the first eight
    characters of its 32-digit hexadecimal form are its top 32 bits. *)
Definition _generate_reservation_id (uuid : N) : string :=
  "RES" ++ hex_digits 8 ((uuid / 2 ^ 96) mod 2 ^ 32)%N "".

Section Engine.

(** The nightly rate is a Python float.  The engine only multiplies it by a
    number of nights and hands the product to the payment capability, so the
    number type and that product stay abstract. *)
Variable Price : Type.
Variable scale : Price → Z → Price.

(** ** Objects *)

Record Room := mkRoom {
  room_id : string;
  room_type : RoomType;
  room_price : Price;
  room_status : RoomStatus
}.

(** Dates are day numbers; the [.days] of the difference of two dates is the
    difference of their numbers. *)
Record Reservation := mkReservation {
  res_id : string;
  res_guest : Guest;
  res_room : room_ref;
  check_in_date : Z;
  check_out_date : Z;
  res_status : ReservationStatus
}.

Definition set_room_status (s : RoomStatus) (rm : Room) : Room :=
  mkRoom (room_id rm) (room_type rm) (room_price rm) s.

Definition set_res_status (s : ReservationStatus) (rv : Reservation) : Reservation :=
  mkReservation (res_id rv) (res_guest rv) (res_room rv)
                (check_in_date rv) (check_out_date rv) s.

(** The payment strategy: [process_payment amount] answers success or failure. *)
Definition Payment := Price → bool.

Definition CreditCardPayment : Payment := λ _, true.
Definition CashPayment : Payment := λ _, true.

(** ** The front desk and the world *)

Record HotelManagementSystem := mkHMS {
  guests : gmap string Guest;
  rooms : gmap string room_ref;
  reservations : gmap string res_ref
}.

(** [payments] records, most recent first, each amount passed to a
    [process_payment] call: the effect on the outside world. *)
Record World := mkWorld {
  room_store : list Room;
  res_store : list Reservation;
  hms : HotelManagementSystem;
  payments : list Price
}.

Definition new_hms : HotelManagementSystem := mkHMS ∅ ∅ ∅.

Definition initial : World := mkWorld [] [] new_hms [].

(** ** A state and exception monad

    A call either returns or raises, and in both cases leaves a world: what
    was assigned before an exception stays assigned.  Within one thread each
    [with ...lock] block finds its lock free and frees it when it is left, by
    a return or by an exception, so the locks do not show here; they do in
    the model of concurrent callers below. *)

Definition M (A : Type) : Type := World → outcome A * World.

Definition ret {A} (a : A) : M A := λ w, (Returned a, w).

Definition raise {A} (e : exn) : M A := λ w, (Raised e, w).

Definition bind {A B} (m : M A) (k : A → M B) : M B :=
  λ w, match m w with
       | (Returned a, w') => k a w'
       | (Raised e, w') => (Raised e, w')
       end.

Notation "'let*' x ':=' m 'in' k" := (bind m (λ x, k))
  (at level 10, x name, m at level 100, k at level 200).
Notation "m '>>' k" := (bind m (λ _, k))
  (at level 100, k at level 200, right associativity).

Definition get_hms : M HotelManagementSystem := λ w, (Returned (hms w), w).

Definition put_hms (h : HotelManagementSystem) : M unit :=
  λ w, (Returned tt, mkWorld (room_store w) (res_store w) h (payments w)).

Definition load_room (r : room_ref) : M Room :=
  λ w, match room_store w !! r with
       | Some rm => (Returned rm, w)
       | None => (Raised NoSuchObject, w)
       end.

Definition store_room (r : room_ref) (rm : Room) : M unit :=
  λ w, (Returned tt,
        mkWorld (<[r := rm]> (room_store w)) (res_store w) (hms w) (payments w)).

Definition load_res (l : res_ref) : M Reservation :=
  λ w, match res_store w !! l with
       | Some rv => (Returned rv, w)
       | None => (Raised NoSuchObject, w)
       end.

Definition store_res (l : res_ref) (rv : Reservation) : M unit :=
  λ w, (Returned tt,
        mkWorld (room_store w) (<[l := rv]> (res_store w)) (hms w) (payments w)).

(** ** Room *)

(** [Room(id, type, price)]: a new object, [AVAILABLE]. *)
Definition Room_new (id : string) (ty : RoomType) (price : Price) : M room_ref :=
  λ w, (Returned (length (room_store w)),
        mkWorld (room_store w ++ [mkRoom id ty price AVAILABLE])
                (res_store w) (hms w) (payments w)).

Definition Room_book (self : room_ref) : M unit :=
  let* rm := load_room self in
  if decide (room_status rm = AVAILABLE)
  then store_room self (set_room_status BOOKED rm)
  else raise (ValueError "Room is not available for booking.").

Definition Room_check_in (self : room_ref) : M unit :=
  let* rm := load_room self in
  if decide (room_status rm = BOOKED)
  then store_room self (set_room_status OCCUPIED rm)
  else raise (ValueError "Room is not booked.").

Definition Room_check_out (self : room_ref) : M unit :=
  let* rm := load_room self in
  if decide (room_status rm = OCCUPIED)
  then store_room self (set_room_status AVAILABLE rm)
  else raise (ValueError "Room is not occupied.").

(** ** Reservation *)

(** [Reservation(id, guest, room, check_in_date, check_out_date)]: a new
    object, [CONFIRMED]; the constructor has no other statement. *)
Definition Reservation_new (id : string) (guest : Guest) (room : room_ref)
    (cin cout : Z) : M res_ref :=
  λ w, (Returned (length (res_store w)),
        mkWorld (room_store w)
                (res_store w ++ [mkReservation id guest room cin cout CONFIRMED])
                (hms w) (payments w)).

Definition Reservation_cancel (self : res_ref) : M unit :=
  let* rv := load_res self in
  if decide (res_status rv = CONFIRMED)
  then store_res self (set_res_status CANCELLED rv) >>
       Room_check_out (res_room rv)
  else raise (ValueError "Reservation is not confirmed.").

(** ** Payment *)

Definition process_payment (p : Payment) (amount : Price) : M bool :=
  λ w, (Returned (p amount),
        mkWorld (room_store w) (res_store w) (hms w) (amount :: payments w)).

(** ** HotelManagementSystem *)

Definition set_guests (g : gmap string Guest) (h : HotelManagementSystem) :=
  mkHMS g (rooms h) (reservations h).

Definition set_rooms (r : gmap string room_ref) (h : HotelManagementSystem) :=
  mkHMS (guests h) r (reservations h).

Definition set_reservations (r : gmap string res_ref) (h : HotelManagementSystem) :=
  mkHMS (guests h) (rooms h) r.

Definition add_guest (guest : Guest) : M unit :=
  let* h := get_hms in
  put_hms (set_guests (<[guest_id guest := guest]> (guests h)) h).

Definition get_guest (id : string) : M (option Guest) :=
  let* h := get_hms in ret (guests h !! id).

Definition add_room (room : room_ref) : M unit :=
  let* rm := load_room room in
  let* h := get_hms in
  put_hms (set_rooms (<[room_id rm := room]> (rooms h)) h).

Definition get_room (id : string) : M (option room_ref) :=
  let* h := get_hms in ret (rooms h !! id).

(** [uuid] is the value [uuid.uuid4()] draws inside
    [_generate_reservation_id]. *)
Definition book_room (guest : Guest) (room : room_ref) (cin cout : Z)
    (uuid : N) : M (option res_ref) :=
  let* rm := load_room room in
  if decide (room_status rm = AVAILABLE) then
    Room_book room >>
    let reservation_id := _generate_reservation_id uuid in
    let* reservation := Reservation_new reservation_id guest room cin cout in
    let* h := get_hms in
    put_hms (set_reservations (<[reservation_id := reservation]> (reservations h)) h) >>
    ret (Some reservation)
  else ret None.

Definition cancel_reservation (reservation_id : string) : M unit :=
  let* h := get_hms in
  match reservations h !! reservation_id with
  | Some reservation =>
      Reservation_cancel reservation >>
      let* h := get_hms in
      put_hms (set_reservations (delete reservation_id (reservations h)) h)
  | None => ret tt
  end.

Definition invalid_reservation : exn :=
  ValueError "Invalid reservation or reservation not confirmed.".

Definition check_in (reservation_id : string) : M unit :=
  let* h := get_hms in
  match reservations h !! reservation_id with
  | Some reservation =>
      let* rv := load_res reservation in
      if decide (res_status rv = CONFIRMED)
      then Room_check_in (res_room rv)
      else raise invalid_reservation
  | None => raise invalid_reservation
  end.

Definition check_out (reservation_id : string) (payment : Payment) : M unit :=
  let* h := get_hms in
  match reservations h !! reservation_id with
  | Some reservation =>
      let* rv := load_res reservation in
      if decide (res_status rv = CONFIRMED) then
        let room := res_room rv in
        let nights := (check_out_date rv - check_in_date rv)%Z in
        let* rm := load_room room in
        let amount := scale (room_price rm) nights in
        let* paid := process_payment payment amount in
        if paid then
          Room_check_out room >>
          let* h := get_hms in
          put_hms (set_reservations (delete reservation_id (reservations h)) h)
        else raise (ValueError "Payment failed.")
      else raise invalid_reservation
  | None => raise invalid_reservation
  end.

(** The amount [check_out] asks the payment capability for. *)
Definition amount_due (rm : Room) (rv : Reservation) : Price :=
  scale (room_price rm) (check_out_date rv - check_in_date rv).

(** ** Runs of the public interface

    A caller constructs rooms and then talks to the front desk only.  A run
    is a list of such calls; the result of each call is dropped and the
    world it leaves is kept, whether it returned or raised. *)

Inductive call :=
  | NewRoom (id : string) (ty : RoomType) (price : Price)
  | AddGuest (guest : Guest)
  | AddRoom (room : room_ref)
  | BookRoom (guest : Guest) (room : room_ref) (cin cout : Z) (uuid : N)
  | CancelReservation (reservation_id : string)
  | CheckIn (reservation_id : string)
  | CheckOut (reservation_id : string) (payment : Payment).

Definition result {A} (m : M A) (w : World) : outcome A := (m w).1.

Definition after {A} (m : M A) (w : World) : World := (m w).2.

Definition exec (c : call) (w : World) : World :=
  match c with
  | NewRoom id ty price => after (Room_new id ty price) w
  | AddGuest guest => after (add_guest guest) w
  | AddRoom room => after (add_room room) w
  | BookRoom guest room cin cout uuid => after (book_room guest room cin cout uuid) w
  | CancelReservation id => after (cancel_reservation id) w
  | CheckIn id => after (check_in id) w
  | CheckOut id payment => after (check_out id payment) w
  end.

Definition run (cs : list call) (w : World) : World :=
  fold_left (λ w c, exec c w) cs w.

(** ** Observations on a world *)

(** The reservation object indexed under [id], if any. *)
Definition active (w : World) (id : string) : option Reservation :=
  match reservations (hms w) !! id with
  | Some l => res_store w !! l
  | None => None
  end.

Definition status_of (w : World) (r : room_ref) : option RoomStatus :=
  room_status <$> room_store w !! r.

(** [id] indexes a [CONFIRMED] reservation of room [r]. *)
Definition confirmed_for (w : World) (r : room_ref) (id : string) : Prop :=
  ∃ rv, active w id = Some rv ∧ res_status rv = CONFIRMED ∧ res_room rv = r.

Definition is_confirmed_for (w : World) (r : room_ref) (l : res_ref) : bool :=
  match res_store w !! l with
  | Some rv => bool_decide (res_status rv = CONFIRMED ∧ res_room rv = r)
  | None => false
  end.

(** How many indexed reservations are [CONFIRMED] and reference room [r]. *)
Definition confirmed_count (w : World) (r : room_ref) : nat :=
  length (filter (λ kv, is_confirmed_for w r kv.2 = true)
                 (map_to_list (reservations (hms w)))).

(** ** Consistency of a world

    [closed]: the index holds references to reservation objects of the
    store.  [held]: a room with an indexed [CONFIRMED] reservation is not
    [AVAILABLE].  [exclusive]: no room has two of them. *)

Definition closed (w : World) : Prop :=
  ∀ id l, reservations (hms w) !! id = Some l → l < length (res_store w).

Definition held (w : World) : Prop :=
  ∀ id rv, active w id = Some rv → res_status rv = CONFIRMED →
    ∃ s, status_of w (res_room rv) = Some s ∧ s ≠ AVAILABLE.

Definition exclusive (w : World) : Prop :=
  ∀ r id1 id2, confirmed_for w r id1 → confirmed_for w r id2 → id1 = id2.

Definition consistent (w : World) : Prop := closed w ∧ held w ∧ exclusive w.

(** ** Concurrent callers of [book_room]

    Threads that each run one [book_room] call, interleaved at the
    statements of its body.  [hms_lock] is the front desk's
    [threading.Lock]: a thread enters the [with self.lock] block only when
    it is free and gives it back when it leaves the block, by [return] or by
    an exception.  [Room.book] runs under the room's own lock as one step. *)

Record request := mkRequest {
  req_guest : Guest;
  req_room : room_ref;
  req_in : Z;
  req_out : Z;
  req_uuid : N
}.

Inductive pc :=
  | AtEntry                                  (* before [with self.lock] *)
  | HoldsLock                                (* before [if room.status == ...] *)
  | SawAvailable                             (* before [room.book()] *)
  | RoomBooked                               (* before the reservation is made *)
  | Done (o : outcome (option res_ref)).     (* after the call *)

Record config := mkConfig {
  world : World;
  hms_lock : bool;
  threads : list (request * pc)
}.

(** The statements of [book_room] after [room.book()]. *)
Definition index_reservation (q : request) : M (option res_ref) :=
  let reservation_id := _generate_reservation_id (req_uuid q) in
  let* reservation :=
    Reservation_new reservation_id (req_guest q) (req_room q) (req_in q) (req_out q) in
  let* h := get_hms in
  put_hms (set_reservations (<[reservation_id := reservation]> (reservations h)) h) >>
  ret (Some reservation).

Definition move (c : config) (i : nat) (q : request) (p : pc) (w : World) : config :=
  mkConfig w true (<[i := (q, p)]> (threads c)).

Definition leave (c : config) (i : nat) (q : request)
    (o : outcome (option res_ref)) (w : World) : config :=
  mkConfig w false (<[i := (q, Done o)]> (threads c)).

Definition step_thread (i : nat) (c : config) : config :=
  match threads c !! i with
  | None => c
  | Some (q, AtEntry) =>
      if hms_lock c then c else move c i q HoldsLock (world c)
  | Some (q, HoldsLock) =>
      match load_room (req_room q) (world c) with
      | (Returned rm, w) =>
          if decide (room_status rm = AVAILABLE)
          then move c i q SawAvailable w
          else leave c i q (Returned None) w
      | (Raised e, w) => leave c i q (Raised e) w
      end
  | Some (q, SawAvailable) =>
      match Room_book (req_room q) (world c) with
      | (Returned _, w) => move c i q RoomBooked w
      | (Raised e, w) => leave c i q (Raised e) w
      end
  | Some (q, RoomBooked) =>
      let (o, w) := index_reservation q (world c) in leave c i q o w
  | Some (q, Done _) => c
  end.

(** A schedule names, step by step, the thread that runs next; naming a
    thread that is blocked on the lock or has finished changes nothing. *)
Definition run_schedule (s : list nat) (c : config) : config :=
  fold_left (λ c i, step_thread i c) s c.

Definition spawn (w : World) (qs : list request) : config :=
  mkConfig w false (map (λ q, (q, AtEntry)) qs).

Definition pc_at (c : config) (i : nat) : option pc := snd <$> threads c !! i.

(** Inside the [with self.lock] block. *)
Definition inside (p : pc) : bool :=
  match p with HoldsLock | SawAvailable | RoomBooked => true | _ => false end.

(** Has flipped the room, and so gets (or has got) the reservation. *)
Definition winner (p : pc) : bool :=
  match p with RoomBooked | Done (Returned (Some _)) => true | _ => false end.

(** What holds of every configuration the callers of one room [r] reach. *)
Record safe (r : room_ref) (c : config) : Prop := mkSafe {
  safe_room : ∀ i q p, threads c !! i = Some (q, p) → req_room q = r;
  safe_store : is_Some (room_store (world c) !! r);
  safe_mutex : ∀ i j p p', pc_at c i = Some p → pc_at c j = Some p' →
                 inside p = true → inside p' = true → i = j;
  safe_lock : ∀ i p, pc_at c i = Some p → inside p = true → hms_lock c = true;
  safe_free : status_of (world c) r = Some AVAILABLE →
                ∀ i p, pc_at c i = Some p →
                  winner p = false ∧ p ≠ Done (Returned None);
  safe_taken : status_of (world c) r ≠ Some AVAILABLE →
                 ∃ i p, pc_at c i = Some p ∧ winner p = true;
  safe_winner : ∀ i j p p', pc_at c i = Some p → pc_at c j = Some p' →
                  winner p = true → winner p' = true → i = j;
  safe_saw : ∀ i, pc_at c i = Some SawAvailable →
               status_of (world c) r = Some AVAILABLE;
  safe_no_raise : ∀ i e, pc_at c i ≠ Some (Done (Raised e));
  safe_holder : hms_lock c = true → ∃ i p, pc_at c i = Some p ∧ inside p = true
}.

(** The statements a caller still has to run, at most. *)
Definition steps_left (p : pc) : nat :=
  match p with
  | AtEntry => 4 | HoldsLock => 3 | SawAvailable => 2 | RoomBooked => 1
  | Done _ => 0
  end.

Definition remaining (c : config) : nat :=
  sum_list (map (λ t, steps_left t.2) (threads c)).

Definition is_done (t : request * pc) : bool :=
  match t.2 with Done _ => true | _ => false end.

Definition all_done (c : config) : bool := forallb is_done (threads c).

(** How many callers satisfy [f]. *)
Definition callers (f : request * pc → bool) (c : config) : nat :=
  length (List.filter f (threads c)).

Definition got_reservation (t : request * pc) : bool :=
  match t.2 with Done (Returned (Some _)) => true | _ => false end.

Definition got_none (t : request * pc) : bool :=
  match t.2 with Done (Returned None) => true | _ => false end.

End Engine.

Arguments mkRoom {Price}.
Arguments room_id {Price}.
Arguments room_type {Price}.
Arguments room_price {Price}.
Arguments room_status {Price}.
Arguments set_room_status {Price}.
Arguments mkWorld {Price}.
Arguments room_store {Price}.
Arguments res_store {Price}.
Arguments hms {Price}.
Arguments payments {Price}.
Arguments initial {Price}.
Arguments ret {Price A}.
Arguments raise {Price A}.
Arguments bind {Price A B}.
Arguments get_hms {Price}.
Arguments put_hms {Price}.
Arguments load_room {Price}.
Arguments store_room {Price}.
Arguments load_res {Price}.
Arguments store_res {Price}.
Arguments Room_new {Price}.
Arguments Room_book {Price}.
Arguments Room_check_in {Price}.
Arguments Room_check_out {Price}.
Arguments Reservation_new {Price}.
Arguments Reservation_cancel {Price}.
Arguments process_payment {Price}.
Arguments CreditCardPayment {Price}.
Arguments CashPayment {Price}.
Arguments add_guest {Price}.
Arguments get_guest {Price}.
Arguments add_room {Price}.
Arguments get_room {Price}.
Arguments book_room {Price}.
Arguments cancel_reservation {Price}.
Arguments check_in {Price}.
Arguments check_out {Price}.
Arguments NewRoom {Price}.
Arguments AddGuest {Price}.
Arguments AddRoom {Price}.
Arguments BookRoom {Price}.
Arguments CancelReservation {Price}.
Arguments CheckIn {Price}.
Arguments CheckOut {Price}.
Arguments amount_due {Price}.
Arguments result {Price A}.
Arguments after {Price A}.
Arguments exec {Price}.
Arguments run {Price}.
Arguments active {Price}.
Arguments status_of {Price}.
Arguments confirmed_for {Price}.
Arguments is_confirmed_for {Price}.
Arguments confirmed_count {Price}.
Arguments closed {Price}.
Arguments held {Price}.
Arguments exclusive {Price}.
Arguments consistent {Price}.

Arguments mkConfig {Price}.
Arguments world {Price}.
Arguments hms_lock {Price}.
Arguments threads {Price}.
Arguments index_reservation {Price}.
Arguments move {Price}.
Arguments leave {Price}.
Arguments step_thread {Price}.
Arguments run_schedule {Price}.
Arguments spawn {Price}.
Arguments all_done {Price}.
Arguments remaining {Price}.
Arguments callers {Price}.
Arguments pc_at {Price}.
Arguments safe {Price}.

(** ** What a call does, case by case

    [effect w c w']: the call [c], made in the world [w], can leave the
    world [w'].  One constructor per way through the body of the operation;
    [eff_none] is every way that assigns nothing. *)

Section Effects.

Context {Price : Type} (scale : Price → Z → Price).

Inductive effect (w : World Price) : call Price → World Price → Prop :=
  | eff_none c : effect w c w
  | eff_new_room id ty price :
      effect w (NewRoom id ty price)
        (mkWorld (room_store w ++ [mkRoom id ty price AVAILABLE])
                 (res_store w) (hms w) (payments w))
  | eff_add_guest g :
      effect w (AddGuest g)
        (mkWorld (room_store w) (res_store w)
                 (set_guests (<[guest_id g := g]> (guests (hms w))) (hms w))
                 (payments w))
  | eff_add_room r rm :
      room_store w !! r = Some rm →
      effect w (AddRoom r)
        (mkWorld (room_store w) (res_store w)
                 (set_rooms (<[room_id rm := r]> (rooms (hms w))) (hms w))
                 (payments w))
  | eff_book guest r cin cout uuid rm :
      room_store w !! r = Some rm → room_status rm = AVAILABLE →
      effect w (BookRoom guest r cin cout uuid)
        (mkWorld (<[r := set_room_status BOOKED rm]> (room_store w))
           (res_store w ++
              [mkReservation (_generate_reservation_id uuid) guest r cin cout
                             CONFIRMED])
           (set_reservations
              (<[_generate_reservation_id uuid := length (res_store w)]>
                 (reservations (hms w))) (hms w))
           (payments w))
  | eff_cancel_half id l rv :
      reservations (hms w) !! id = Some l → res_store w !! l = Some rv →
      res_status rv = CONFIRMED →
      (∀ rm, room_store w !! res_room rv = Some rm → room_status rm ≠ OCCUPIED) →
      effect w (CancelReservation id)
        (mkWorld (room_store w)
                 (<[l := set_res_status CANCELLED rv]> (res_store w))
                 (hms w) (payments w))
  | eff_cancel id l rv rm :
      reservations (hms w) !! id = Some l → res_store w !! l = Some rv →
      res_status rv = CONFIRMED →
      room_store w !! res_room rv = Some rm → room_status rm = OCCUPIED →
      effect w (CancelReservation id)
        (mkWorld (<[res_room rv := set_room_status AVAILABLE rm]> (room_store w))
                 (<[l := set_res_status CANCELLED rv]> (res_store w))
                 (set_reservations (delete id (reservations (hms w))) (hms w))
                 (payments w))
  | eff_check_in id l rv rm :
      reservations (hms w) !! id = Some l → res_store w !! l = Some rv →
      res_status rv = CONFIRMED →
      room_store w !! res_room rv = Some rm → room_status rm = BOOKED →
      effect w (CheckIn id)
        (mkWorld (<[res_room rv := set_room_status OCCUPIED rm]> (room_store w))
                 (res_store w) (hms w) (payments w))
  | eff_asked id payment l rv rm :
      reservations (hms w) !! id = Some l → res_store w !! l = Some rv →
      res_status rv = CONFIRMED → room_store w !! res_room rv = Some rm →
      payment (amount_due scale rm rv) = false ∨ room_status rm ≠ OCCUPIED →
      effect w (CheckOut id payment)
        (mkWorld (room_store w) (res_store w) (hms w)
                 (amount_due scale rm rv :: payments w))
  | eff_check_out id payment l rv rm :
      reservations (hms w) !! id = Some l → res_store w !! l = Some rv →
      res_status rv = CONFIRMED → room_store w !! res_room rv = Some rm →
      payment (amount_due scale rm rv) = true → room_status rm = OCCUPIED →
      effect w (CheckOut id payment)
        (mkWorld (<[res_room rv := set_room_status AVAILABLE rm]> (room_store w))
                 (res_store w)
                 (set_reservations (delete id (reservations (hms w))) (hms w))
                 (amount_due scale rm rv :: payments w)).

(** The room a call is about, if any. *)
Definition target (c : call Price) (w : World Price) : option nat :=
  match c with
  | BookRoom _ room _ _ _ => Some room
  | CancelReservation id | CheckIn id | CheckOut id _ => res_room <$> active w id
  | _ => None
  end.

(** Every indexed reservation is filed under its own id. *)
Definition keyed (w : World Price) : Prop :=
  ∀ id rv, active w id = Some rv → res_id rv = id.

Definition is_check_out (c : call Price) : bool :=
  match c with CheckOut _ _ => true | _ => false end.

End Effects.

(** ** The shape of a reservation identifier *)

Definition is_upper_hex (a : ascii) : bool :=
  let n := N_of_ascii a in
  ((48 <=? n) && (n <=? 57) || (65 <=? n) && (n <=? 70))%N.

(** The part of the uuid that reaches the identifier. *)
Definition top32 (uuid : N) : N := ((uuid / 2 ^ 96) mod 2 ^ 32)%N.

(** ** Fixtures: the scenario of the specification, with integer prices *)

Definition guest1 : Guest := mkGuest "g1" "Ada" "ada@example.org" "555-0100".

Definition declining : Payment Z := λ _, false.

Definition one_room : World Z := run Z.mul [NewRoom "R1" SINGLE 100%Z] initial.

Definition booked : World Z :=
  run Z.mul [BookRoom guest1 0 0%Z 2%Z 0%N] one_room.

Definition in_use : World Z := run Z.mul [CheckIn "RES00000000"] booked.

Definition res1 : Reservation :=
  mkReservation "RES00000000" guest1 0 0%Z 2%Z CONFIRMED.

Definition room1 (s : RoomStatus) : Room Z := mkRoom "R1" SINGLE 100%Z s.

(** Three callers after the one room, and an interleaving of their steps. *)
Definition three_callers : list request :=
  [mkRequest guest1 0 0%Z 2%Z (1 * 2 ^ 96)%N;
   mkRequest guest1 0 3%Z 4%Z (2 * 2 ^ 96)%N;
   mkRequest guest1 0 5%Z 9%Z (3 * 2 ^ 96)%N].

Definition interleaving : list nat :=
  [1; 0; 2; 1; 0; 1; 2; 1; 0; 0; 2; 2; 0; 2]%nat.

(** Further worlds: the room left behind by a cancellation before arrival,
    two rooms, and two room objects that carry the same id. *)
Definition guest2 : Guest := mkGuest "g2" "Bob" "bob@example.org" "555-0101".

Definition left_behind : World Z :=
  run Z.mul [CancelReservation "RES00000000"] booked.

Definition two_rooms : World Z :=
  run Z.mul [NewRoom "R1" SINGLE 100%Z; NewRoom "R2" DOUBLE 150%Z] initial.

Definition same_id_rooms : World Z :=
  run Z.mul [NewRoom "R1" SINGLE 100%Z; NewRoom "R1" SUITE 400%Z] initial.

(** * Properties *)

Section Properties.

Context {Price : Type} (scale : Price → Z → Price).

Implicit Types (w : World Price) (r : room_ref) (l : res_ref) (id : string)
  (rm : Room Price) (rv : Reservation) (payment : Payment Price)
  (rms : list (Room Price)) (rss : list Reservation)
  (h : HotelManagementSystem) (ps : list Price).

Ltac unfold_m :=
  unfold result, after, bind, ret, raise, get_hms, put_hms, load_room,
    store_room, load_res, store_res, process_payment in *.

(** Run a monadic term along the lookups and statuses known in the context. *)
Ltac step_m :=
  first
    [ progress simpl
    | match goal with
      | H : ?xs !! ?i = _ |- context [?xs !! ?i] => rewrite H
      | H : ?p ?a = _ |- context [if ?p ?a then _ else _] => rewrite H
      end
    | case_decide; [|congruence]
    | case_decide; [congruence|] ].

Ltac eval_m := unfold_m; repeat step_m; try done.

(** *** The room state machine *)

Lemma Room_book_available w r rm :
  room_store w !! r = Some rm → room_status rm = AVAILABLE →
  Room_book r w =
    (Returned tt, mkWorld (<[r := set_room_status BOOKED rm]> (room_store w))
                          (res_store w) (hms w) (payments w)).
Proof.
  intros Hr Hs. unfold Room_book. unfold_m. rewrite Hr.
  case_decide; [done | contradiction].
Qed.

Lemma Room_check_in_booked w r rm :
  room_store w !! r = Some rm → room_status rm = BOOKED →
  Room_check_in r w =
    (Returned tt, mkWorld (<[r := set_room_status OCCUPIED rm]> (room_store w))
                          (res_store w) (hms w) (payments w)).
Proof.
  intros Hr Hs. unfold Room_check_in. unfold_m. rewrite Hr.
  case_decide; [done | contradiction].
Qed.

Lemma Room_check_out_occupied w r rm :
  room_store w !! r = Some rm → room_status rm = OCCUPIED →
  Room_check_out r w =
    (Returned tt, mkWorld (<[r := set_room_status AVAILABLE rm]> (room_store w))
                          (res_store w) (hms w) (payments w)).
Proof.
  intros Hr Hs. unfold Room_check_out. unfold_m. rewrite Hr.
  case_decide; [done | contradiction].
Qed.

Lemma Room_check_out_not_occupied w r rm :
  room_store w !! r = Some rm → room_status rm ≠ OCCUPIED →
  Room_check_out r w = (Raised (ValueError "Room is not occupied."), w).
Proof.
  intros Hr Hs. unfold Room_check_out. unfold_m. rewrite Hr.
  case_decide; [contradiction | done].
Qed.

Lemma lookup_insert_same {A} (xs : list A) (i : nat) (x y : A) :
  xs !! i = Some x → <[i := y]> xs !! i = Some y.
Proof. intros H. apply list_lookup_insert_eq. by eapply lookup_lt_Some. Qed.

(** *** Evaluation of the front-desk operations *)

Lemma active_lookup w id rv :
  active w id = Some rv →
  ∃ l, reservations (hms w) !! id = Some l ∧ res_store w !! l = Some rv.
Proof.
  unfold active. destruct (reservations (hms w) !! id) as [l|]; [|done].
  intros H. by exists l.
Qed.

Lemma status_of_lookup w r s :
  status_of w r = Some s →
  ∃ rm, room_store w !! r = Some rm ∧ room_status rm = s.
Proof.
  unfold status_of. destruct (room_store w !! r) as [rm|]; [|done].
  intros [= <-]. by exists rm.
Qed.

Lemma book_room_available w guest r rm cin cout uuid :
  room_store w !! r = Some rm → room_status rm = AVAILABLE →
  book_room guest r cin cout uuid w =
    (Returned (Some (length (res_store w))),
     mkWorld (<[r := set_room_status BOOKED rm]> (room_store w))
       (res_store w ++
          [mkReservation (_generate_reservation_id uuid) guest r cin cout CONFIRMED])
       (set_reservations
          (<[_generate_reservation_id uuid := length (res_store w)]>
             (reservations (hms w))) (hms w))
       (payments w)).
Proof.
  intros Hr Hs. unfold book_room, Room_book, Reservation_new. eval_m.
Qed.

Lemma book_room_unavailable w guest r rm cin cout uuid :
  room_store w !! r = Some rm → room_status rm ≠ AVAILABLE →
  book_room guest r cin cout uuid w = (Returned None, w).
Proof.
  intros Hr Hs. unfold book_room. eval_m.
Qed.

Lemma cancel_reservation_unknown w id :
  reservations (hms w) !! id = None →
  cancel_reservation id w = (Returned tt, w).
Proof. intros H. unfold cancel_reservation. unfold_m. simpl. by rewrite H. Qed.

Lemma cancel_reservation_occupied w id l rv rm :
  reservations (hms w) !! id = Some l → res_store w !! l = Some rv →
  res_status rv = CONFIRMED →
  room_store w !! res_room rv = Some rm → room_status rm = OCCUPIED →
  cancel_reservation id w =
    (Returned tt,
     mkWorld (<[res_room rv := set_room_status AVAILABLE rm]> (room_store w))
       (<[l := set_res_status CANCELLED rv]> (res_store w))
       (set_reservations (delete id (reservations (hms w))) (hms w))
       (payments w)).
Proof.
  intros Hid Hl Hc Hr Hs. unfold cancel_reservation, Reservation_cancel, Room_check_out. eval_m.
Qed.

Lemma cancel_reservation_not_occupied w id l rv rm :
  reservations (hms w) !! id = Some l → res_store w !! l = Some rv →
  res_status rv = CONFIRMED →
  room_store w !! res_room rv = Some rm → room_status rm ≠ OCCUPIED →
  cancel_reservation id w =
    (Raised (ValueError "Room is not occupied."),
     mkWorld (room_store w) (<[l := set_res_status CANCELLED rv]> (res_store w))
       (hms w) (payments w)).
Proof.
  intros Hid Hl Hc Hr Hs. unfold cancel_reservation, Reservation_cancel, Room_check_out. eval_m.
Qed.

Lemma check_in_booked w id l rv rm :
  reservations (hms w) !! id = Some l → res_store w !! l = Some rv →
  res_status rv = CONFIRMED →
  room_store w !! res_room rv = Some rm → room_status rm = BOOKED →
  check_in id w =
    (Returned tt,
     mkWorld (<[res_room rv := set_room_status OCCUPIED rm]> (room_store w))
       (res_store w) (hms w) (payments w)).
Proof.
  intros Hid Hl Hc Hr Hs. unfold check_in, Room_check_in. eval_m.
Qed.

Lemma check_in_unknown w id :
  reservations (hms w) !! id = None →
  check_in id w = (Raised invalid_reservation, w).
Proof. intros H. unfold check_in. unfold_m. simpl. by rewrite H. Qed.

Lemma check_out_unknown w id payment :
  reservations (hms w) !! id = None →
  check_out scale id payment w = (Raised invalid_reservation, w).
Proof. intros H. unfold check_out. unfold_m. simpl. by rewrite H. Qed.

Lemma check_out_declined w id l rv rm payment :
  reservations (hms w) !! id = Some l → res_store w !! l = Some rv →
  res_status rv = CONFIRMED → room_store w !! res_room rv = Some rm →
  payment (amount_due scale rm rv) = false →
  check_out scale id payment w =
    (Raised (ValueError "Payment failed."),
     mkWorld (room_store w) (res_store w) (hms w)
       (amount_due scale rm rv :: payments w)).
Proof.
  intros Hid Hl Hc Hr Hp. unfold check_out, amount_due in *. eval_m.
Qed.

Lemma check_out_paid_occupied w id l rv rm payment :
  reservations (hms w) !! id = Some l → res_store w !! l = Some rv →
  res_status rv = CONFIRMED → room_store w !! res_room rv = Some rm →
  payment (amount_due scale rm rv) = true → room_status rm = OCCUPIED →
  check_out scale id payment w =
    (Returned tt,
     mkWorld (<[res_room rv := set_room_status AVAILABLE rm]> (room_store w))
       (res_store w)
       (set_reservations (delete id (reservations (hms w))) (hms w))
       (amount_due scale rm rv :: payments w)).
Proof.
  intros Hid Hl Hc Hr Hp Hs. unfold check_out, Room_check_out, amount_due in *. eval_m.
Qed.

Lemma check_out_paid_not_occupied w id l rv rm payment :
  reservations (hms w) !! id = Some l → res_store w !! l = Some rv →
  res_status rv = CONFIRMED → room_store w !! res_room rv = Some rm →
  payment (amount_due scale rm rv) = true → room_status rm ≠ OCCUPIED →
  check_out scale id payment w =
    (Raised (ValueError "Room is not occupied."),
     mkWorld (room_store w) (res_store w) (hms w)
       (amount_due scale rm rv :: payments w)).
Proof.
  intros Hid Hl Hc Hr Hp Hs. unfold check_out, Room_check_out, amount_due in *. eval_m.
Qed.

Lemma status_of_insert w r rm rm' rs h ps :
  room_store w !! r = Some rm →
  status_of (mkWorld (<[r := rm']> (room_store w)) rs h ps) r
    = Some (room_status rm').
Proof.
  intros Hr. unfold status_of. simpl.
  by rewrite (lookup_insert_same _ _ rm).
Qed.

Lemma active_insert w id l rv rv' rms h ps :
  reservations h !! id = Some l → res_store w !! l = Some rv →
  active (mkWorld rms (<[l := rv']> (res_store w)) h ps) id = Some rv'.
Proof.
  intros Hid Hl. unfold active. simpl. rewrite Hid.
  by apply (lookup_insert_same _ _ rv).
Qed.

Lemma active_deleted id rms rss h ps :
  active (mkWorld rms rss (set_reservations (delete id (reservations h)) h) ps) id
    = None.
Proof. unfold active. simpl. by rewrite lookup_delete_eq. Qed.

(** *** Claims about single operations *)

(** C5 (as amended): [Room.check_out], the release transition, succeeds and
    makes the room [AVAILABLE] exactly when the room is [OCCUPIED]; from
    [BOOKED] as from [AVAILABLE] it raises "Room is not occupied." and
    changes nothing. *)
Theorem Room_check_out_only_from_occupied w r rm :
  room_store w !! r = Some rm →
  (room_status rm = OCCUPIED →
     result (Room_check_out r) w = Returned tt ∧
     status_of (after (Room_check_out r) w) r = Some AVAILABLE) ∧
  (room_status rm = BOOKED ∨ room_status rm = AVAILABLE →
     Room_check_out r w = (Raised (ValueError "Room is not occupied."), w)).
Proof.
  intros Hr. split.
  - intros Hs. unfold result, after.
    rewrite (Room_check_out_occupied w r rm Hr Hs). simpl. split; [done|].
    by rewrite (status_of_insert w r rm).
  - intros Hs. apply (Room_check_out_not_occupied w r rm Hr).
    destruct Hs as [Hs|Hs]; rewrite Hs; discriminate.
Qed.

(** C6 (as amended): the [Reservation] constructor accepts every pair of
    dates, also [start >= end]: it never raises, and the object it builds is
    [CONFIRMED] and holds the two dates as given.  So does [book_room] on an
    available room. *)
Theorem Reservation_new_accepts_any_dates w guest r rm cin cout uuid :
  room_store w !! r = Some rm → room_status rm = AVAILABLE →
  let id := _generate_reservation_id uuid in
  let made := mkReservation id guest r cin cout CONFIRMED in
  (∃ l, result (Reservation_new id guest r cin cout) w = Returned l ∧
        res_store (after (Reservation_new id guest r cin cout) w) !! l = Some made) ∧
  (∃ l, result (book_room guest r cin cout uuid) w = Returned (Some l)) ∧
  active (after (book_room guest r cin cout uuid) w) id = Some made.
Proof.
  intros Hr Hs id made. split; [|split].
  - exists (length (res_store w)). split; [done|].
    unfold after, Reservation_new. simpl.
    rewrite lookup_app_r by lia. by rewrite Nat.sub_diag.
  - exists (length (res_store w)). unfold result.
    by rewrite (book_room_available w guest r rm cin cout uuid Hr Hs).
  - unfold after. rewrite (book_room_available w guest r rm cin cout uuid Hr Hs).
    unfold active. simpl. fold id. rewrite lookup_insert_eq.
    rewrite lookup_app_r by lia. by rewrite Nat.sub_diag.
Qed.

(** C7 (evaluation of the code at the failing input):
    [cancel_reservation] on an identifier that is not in the index returns
    normally and leaves the world as it was; nothing tells the caller that
    the reservation was not found. *)
Theorem cancel_unknown_returns_silently w id :
  reservations (hms w) !! id = None →
  cancel_reservation id w = (Returned tt, w).
Proof. apply cancel_reservation_unknown. Qed.

(** C9: cancelling a [CONFIRMED] reservation whose room is [BOOKED] raises,
    and the error leaves half of the cancellation behind: the reservation is
    now [CANCELLED], it is still in the index, and the room is still
    [BOOKED]. *)
Theorem cancel_before_arrival_raises_half_done w id rv :
  active w id = Some rv → res_status rv = CONFIRMED →
  status_of w (res_room rv) = Some BOOKED →
  let w' := after (cancel_reservation id) w in
  result (cancel_reservation id) w = Raised (ValueError "Room is not occupied.") ∧
  is_Some (reservations (hms w') !! id) ∧
  active w' id = Some (set_res_status CANCELLED rv) ∧
  res_status (set_res_status CANCELLED rv) = CANCELLED ∧
  status_of w' (res_room rv) = Some BOOKED.
Proof.
  intros Ha Hc Hs w'. subst w'.
  destruct (active_lookup _ _ _ Ha) as (l & Hid & Hl).
  destruct (status_of_lookup _ _ _ Hs) as (rm & Hr & Hb).
  assert (Hno : room_status rm ≠ OCCUPIED) by (rewrite Hb; discriminate).
  unfold result, after.
  rewrite (cancel_reservation_not_occupied w id l rv rm Hid Hl Hc Hr Hno). simpl.
  split; [done|]. split; [by rewrite Hid|].
  split; [by apply (active_insert w id l rv)|]. split; [done|].
  unfold status_of. simpl. by rewrite Hr; simpl; rewrite Hb.
Qed.

(** C10: checking out a [CONFIRMED] reservation whose room is still [BOOKED]
    with a capability that accepts the amount first calls [process_payment]
    with that amount and then raises; rooms, reservations and the index are
    what they were, the payment has been taken. *)
Theorem check_out_before_arrival_pays_then_raises w id rv rm payment :
  active w id = Some rv → res_status rv = CONFIRMED →
  room_store w !! res_room rv = Some rm → room_status rm = BOOKED →
  payment (amount_due scale rm rv) = true →
  check_out scale id payment w =
    (Raised (ValueError "Room is not occupied."),
     mkWorld (room_store w) (res_store w) (hms w)
             (amount_due scale rm rv :: payments w)) ∧
  active w id = Some rv ∧ status_of w (res_room rv) = Some BOOKED.
Proof.
  intros Ha Hc Hr Hb Hp.
  destruct (active_lookup _ _ _ Ha) as (l & Hid & Hl).
  assert (Hno : room_status rm ≠ OCCUPIED) by (rewrite Hb; discriminate).
  split; [|split; [done|]].
  - by apply (check_out_paid_not_occupied w id l rv rm).
  - unfold status_of. by rewrite Hr; simpl; rewrite Hb.
Qed.

(** C2 (as amended): a [check_out] of an indexed [CONFIRMED] reservation
    whose payment is declined raises "Payment failed." and leaves every room,
    every reservation and the index as they were; if the room is [OCCUPIED],
    a following [check_out] of the same identifier whose payment is accepted
    returns, frees the room and removes the reservation from the index. *)
Theorem declined_payment_commits_nothing w id rv rm declined accepted :
  active w id = Some rv → res_status rv = CONFIRMED →
  room_store w !! res_room rv = Some rm →
  declined (amount_due scale rm rv) = false →
  let w' := after (check_out scale id declined) w in
  result (check_out scale id declined) w = Raised (ValueError "Payment failed.") ∧
  room_store w' = room_store w ∧ res_store w' = res_store w ∧ hms w' = hms w ∧
  (room_status rm = OCCUPIED → accepted (amount_due scale rm rv) = true →
   let w'' := after (check_out scale id accepted) w' in
   result (check_out scale id accepted) w' = Returned tt ∧
   status_of w'' (res_room rv) = Some AVAILABLE ∧
   active w'' id = None).
Proof.
  intros Ha Hc Hr Hd w'. subst w'.
  destruct (active_lookup _ _ _ Ha) as (l & Hid & Hl).
  unfold result, after.
  rewrite (check_out_declined w id l rv rm declined Hid Hl Hc Hr Hd). simpl.
  repeat (split; [done|]). intros Ho Hacc.
  set (w' := mkWorld _ _ _ _).
  rewrite (check_out_paid_occupied w' id l rv rm accepted Hid Hl Hc Hr Hacc Ho).
  simpl. split; [done|]. split.
  - by apply (status_of_insert w _ rm).
  - apply active_deleted.
Qed.

(** C1 (evaluation of the code at the failing input, and the half that
    holds): after a successful [book_room], [cancel_reservation] on the new
    identifier raises "Room is not occupied.", the room stays [BOOKED] and
    the reservation stays in the index, [CANCELLED]; only when [check_in]
    came in between does it return, free the room and remove the
    reservation. *)
Theorem book_then_cancel w guest r rm cin cout uuid :
  room_store w !! r = Some rm → room_status rm = AVAILABLE →
  let id := _generate_reservation_id uuid in
  let made := mkReservation id guest r cin cout CONFIRMED in
  let wb := after (book_room guest r cin cout uuid) w in
  let wi := after (check_in id) wb in
  active wb id = Some made ∧
  (result (cancel_reservation id) wb = Raised (ValueError "Room is not occupied.") ∧
   status_of (after (cancel_reservation id) wb) r = Some BOOKED ∧
   active (after (cancel_reservation id) wb) id = Some (set_res_status CANCELLED made)) ∧
  (result (check_in id) wb = Returned tt ∧
   result (cancel_reservation id) wi = Returned tt ∧
   status_of (after (cancel_reservation id) wi) r = Some AVAILABLE ∧
   active (after (cancel_reservation id) wi) id = None).
Proof.
  intros Hr Hs id made wb wi.
  pose proof (book_room_available w guest r rm cin cout uuid Hr Hs) as Hbook.
  fold id in Hbook. fold made in Hbook.
  assert (Hwb : wb = mkWorld (<[r := set_room_status BOOKED rm]> (room_store w))
                   (res_store w ++ [made])
                   (set_reservations
                      (<[id := length (res_store w)]> (reservations (hms w))) (hms w))
                   (payments w))
    by (subst wb; unfold after; by rewrite Hbook).
  assert (Hid : reservations (hms wb) !! id = Some (length (res_store w)))
    by (rewrite Hwb; simpl; apply lookup_insert_eq).
  assert (Hl : res_store wb !! length (res_store w) = Some made)
    by (rewrite Hwb; simpl; rewrite lookup_app_r by lia; by rewrite Nat.sub_diag).
  assert (Hrb : room_store wb !! r = Some (set_room_status BOOKED rm))
    by (rewrite Hwb; simpl; by apply (lookup_insert_same _ _ rm)).
  pose proof (check_in_booked wb id _ made _ Hid Hl eq_refl Hrb eq_refl) as Hin.
  assert (Hwi : wi = mkWorld
                   (<[r := set_room_status OCCUPIED (set_room_status BOOKED rm)]>
                      (room_store wb))
                   (res_store wb) (hms wb) (payments wb))
    by (subst wi; unfold after; by rewrite Hin).
  clearbody wi wb.
  split; [unfold active; by rewrite Hid|]. split.
  - unfold result, after.
    rewrite (cancel_reservation_not_occupied wb id _ made _ Hid Hl eq_refl Hrb)
      by discriminate.
    simpl. split; [done|]. split.
    + unfold status_of. simpl. by rewrite Hrb.
    + by apply (active_insert wb id _ made).
  - split; [unfold result; by rewrite Hin|].
    assert (Hid' : reservations (hms wi) !! id = Some (length (res_store w)))
      by (by rewrite Hwi).
    assert (Hl' : res_store wi !! length (res_store w) = Some made)
      by (by rewrite Hwi).
    assert (Hri : room_store wi !! r
                  = Some (set_room_status OCCUPIED (set_room_status BOOKED rm)))
      by (rewrite Hwi; simpl; by apply (lookup_insert_same _ _ _ _ Hrb)).
    unfold result, after.
    rewrite (cancel_reservation_occupied wi id _ made _ Hid' Hl' eq_refl Hri eq_refl).
    simpl. split; [done|]. split.
    + by rewrite (status_of_insert wi _ _ _ _ _ _ Hri).
    + apply active_deleted.
Qed.

(** *** What each call can do to the world *)

Lemma book_room_cases w guest r cin cout uuid :
  book_room guest r cin cout uuid w = (Returned None, w) ∨
  book_room guest r cin cout uuid w = (Raised NoSuchObject, w) ∨
  ∃ rm, room_store w !! r = Some rm ∧ room_status rm = AVAILABLE.
Proof.
  destruct (room_store w !! r) as [rm|] eqn:Hr.
  - destruct (decide (room_status rm = AVAILABLE)) as [Hs|Hs].
    + right. right. by exists rm.
    + left. by apply (book_room_unavailable w guest r rm).
  - right. left. unfold book_room. eval_m.
Qed.

Lemma check_in_cases w id :
  after (check_in id) w = w ∨
  ∃ l rv rm,
    reservations (hms w) !! id = Some l ∧ res_store w !! l = Some rv ∧
    res_status rv = CONFIRMED ∧
    room_store w !! res_room rv = Some rm ∧ room_status rm = BOOKED.
Proof.
  destruct (reservations (hms w) !! id) as [l|] eqn:Hid;
    [|left; unfold check_in; eval_m].
  destruct (res_store w !! l) as [rv|] eqn:Hl;
    [|left; unfold check_in; eval_m].
  destruct (decide (res_status rv = CONFIRMED)) as [Hc|Hc];
    [|left; unfold check_in; eval_m].
  destruct (room_store w !! res_room rv) as [rm|] eqn:Hr;
    [|left; unfold check_in, Room_check_in; eval_m].
  destruct (decide (room_status rm = BOOKED)) as [Hs|Hs];
    [|left; unfold check_in, Room_check_in; eval_m].
  right. by exists l, rv, rm.
Qed.

Lemma check_out_cases w id payment :
  (∃ ps, after (check_out scale id payment) w
         = mkWorld (room_store w) (res_store w) (hms w) ps) ∨
  ∃ l rv rm,
    reservations (hms w) !! id = Some l ∧ res_store w !! l = Some rv ∧
    res_status rv = CONFIRMED ∧
    room_store w !! res_room rv = Some rm ∧ room_status rm = OCCUPIED ∧
    payment (amount_due scale rm rv) = true.
Proof.
  assert (Hsame : ∀ w', w' = w →
            ∃ ps, w' = mkWorld (room_store w) (res_store w) (hms w) ps)
    by (intros w' ->; exists (payments w); by destruct w).
  destruct (reservations (hms w) !! id) as [l|] eqn:Hid;
    [|left; apply Hsame; unfold check_out; eval_m].
  destruct (res_store w !! l) as [rv|] eqn:Hl;
    [|left; apply Hsame; unfold check_out; eval_m].
  destruct (decide (res_status rv = CONFIRMED)) as [Hc|Hc];
    [|left; apply Hsame; unfold check_out; eval_m].
  destruct (room_store w !! res_room rv) as [rm|] eqn:Hr;
    [|left; apply Hsame; unfold check_out; eval_m].
  destruct (payment (amount_due scale rm rv)) eqn:Hp.
  - destruct (decide (room_status rm = OCCUPIED)) as [Hs|Hs].
    + right. by exists l, rv, rm.
    + left. eexists. unfold after.
      by rewrite (check_out_paid_not_occupied w id l rv rm payment).
  - left. eexists. unfold after.
    by rewrite (check_out_declined w id l rv rm payment).
Qed.

Lemma cancel_reservation_cases w id :
  after (cancel_reservation id) w = w ∨
  ∃ l rv,
    reservations (hms w) !! id = Some l ∧ res_store w !! l = Some rv ∧
    res_status rv = CONFIRMED ∧
    (after (cancel_reservation id) w
       = mkWorld (room_store w) (<[l := set_res_status CANCELLED rv]> (res_store w))
           (hms w) (payments w) ∨
     ∃ rm, room_store w !! res_room rv = Some rm ∧ room_status rm = OCCUPIED).
Proof.
  destruct (reservations (hms w) !! id) as [l|] eqn:Hid;
    [|left; unfold cancel_reservation; eval_m].
  destruct (res_store w !! l) as [rv|] eqn:Hl;
    [|left; unfold cancel_reservation, Reservation_cancel; eval_m].
  destruct (decide (res_status rv = CONFIRMED)) as [Hc|Hc];
    [|left; unfold cancel_reservation, Reservation_cancel; eval_m].
  right. exists l, rv. repeat (split; [done|]).
  destruct (room_store w !! res_room rv) as [rm|] eqn:Hr.
  - destruct (decide (room_status rm = OCCUPIED)) as [Hs|Hs].
    + right. by exists rm.
    + left. unfold after.
      by rewrite (cancel_reservation_not_occupied w id l rv rm).
  - left. unfold cancel_reservation, Reservation_cancel, Room_check_out. eval_m.
Qed.

(** *** Consistency is kept by every call *)

Lemma consistent_initial : consistent (@initial Price).
Proof.
  split; [|split].
  - intros id l H. done.
  - intros id rv H. done.
  - intros r id1 id2 (rv & H & _). done.
Qed.

Lemma consistent_same_objects w w' :
  room_store w' = room_store w → res_store w' = res_store w →
  reservations (hms w') = reservations (hms w) →
  consistent w → consistent w'.
Proof.
  intros Hrm Hrs Hix (Hcl & Hh & Hex).
  assert (Ha : ∀ id, active w' id = active w id)
    by (intros id; unfold active; by rewrite Hix, Hrs).
  assert (Hs : ∀ r, status_of w' r = status_of w r)
    by (intros r; unfold status_of; by rewrite Hrm).
  split; [|split].
  - intros id l. rewrite Hix, Hrs. apply Hcl.
  - intros id rv. rewrite Ha, Hs. apply Hh.
  - intros r id1 id2. unfold confirmed_for. setoid_rewrite Ha. apply Hex.
Qed.

Lemma status_of_insert_ne w r r' rm' rss h ps :
  r ≠ r' →
  status_of (mkWorld (<[r := rm']> (room_store w)) rss h ps) r' = status_of w r'.
Proof. intros Hne. unfold status_of. simpl. by rewrite list_lookup_insert_ne. Qed.

Lemma consistent_room_taken w r rm s :
  consistent w → room_store w !! r = Some rm → s ≠ AVAILABLE →
  consistent (mkWorld (<[r := set_room_status s rm]> (room_store w))
                      (res_store w) (hms w) (payments w)).
Proof.
  intros (Hcl & Hh & Hex) Hr Hs. split; [|split].
  - exact Hcl.
  - intros id rv Ha Hc. destruct (Hh id rv Ha Hc) as (s' & Hs' & Hne).
    destruct (decide (r = res_room rv)) as [<-|Hd].
    + exists s. split; [|done]. by rewrite (status_of_insert w r rm).
    + exists s'. split; [|done]. by rewrite status_of_insert_ne.
  - exact Hex.
Qed.

Lemma active_after_cancelled w l rv id rv' :
  res_store w !! l = Some rv →
  active (mkWorld (room_store w)
                  (<[l := set_res_status CANCELLED rv]> (res_store w))
                  (hms w) (payments w)) id = Some rv' →
  res_status rv' = CONFIRMED →
  active w id = Some rv'.
Proof.
  intros Hl Ha Hc. unfold active in *. simpl in Ha.
  destruct (reservations (hms w) !! id) as [l'|]; [|done].
  destruct (decide (l = l')) as [<-|Hd].
  - rewrite (lookup_insert_same _ _ rv) in Ha by done.
    injection Ha as <-. discriminate.
  - by rewrite list_lookup_insert_ne in Ha.
Qed.

Lemma consistent_cancelled w l rv :
  consistent w → res_store w !! l = Some rv →
  consistent (mkWorld (room_store w)
                      (<[l := set_res_status CANCELLED rv]> (res_store w))
                      (hms w) (payments w)).
Proof.
  intros (Hcl & Hh & Hex) Hl.
  set (w' := mkWorld _ _ _ _).
  assert (Hkeep : ∀ id rv', active w' id = Some rv' → res_status rv' = CONFIRMED →
                            active w id = Some rv')
    by (intros id rv'; by apply active_after_cancelled).
  split; [|split].
  - intros id l' H. simpl. rewrite length_insert. by apply (Hcl id).
  - intros id rv' Ha Hc. apply (Hh id rv'); [by apply Hkeep | done].
  - intros r id1 id2 (rv1 & H1 & Hc1 & Hr1) (rv2 & H2 & Hc2 & Hr2).
    apply (Hex r); [exists rv1 | exists rv2]; eauto.
Qed.

Lemma consistent_released w r rm id :
  consistent w → room_store w !! r = Some rm →
  (∀ id', confirmed_for w r id' → id' = id) →
  consistent (mkWorld (<[r := set_room_status AVAILABLE rm]> (room_store w))
                      (res_store w)
                      (set_reservations (delete id (reservations (hms w))) (hms w))
                      (payments w)).
Proof.
  intros (Hcl & Hh & Hex) Hr Honly.
  set (w' := mkWorld _ _ _ _).
  assert (Hkeep : ∀ id' rv', active w' id' = Some rv' →
                             id' ≠ id ∧ active w id' = Some rv').
  { intros id' rv' Ha. unfold active in *. simpl in Ha.
    destruct (decide (id = id')) as [<-|Hd].
    - by rewrite lookup_delete_eq in Ha.
    - by rewrite lookup_delete_ne in Ha. }
  split; [|split].
  - intros id' l H. simpl in *. apply (Hcl id').
    apply lookup_delete_Some in H. tauto.
  - intros id' rv' Ha Hc. destruct (Hkeep _ _ Ha) as [Hne Ha'].
    destruct (Hh id' rv' Ha' Hc) as (s & Hs & Hav).
    destruct (decide (r = res_room rv')) as [Heq|Hd].
    + destruct Hne. apply Honly. by exists rv'.
    + exists s. split; [|done]. unfold w'. by rewrite status_of_insert_ne.
  - intros r0 id1 id2 (rv1 & H1 & Hc1 & Hr1) (rv2 & H2 & Hc2 & Hr2).
    apply (Hex r0); [exists rv1 | exists rv2];
      (split; [by apply Hkeep | done]).
Qed.

Lemma consistent_booked w guest r rm cin cout id :
  consistent w → room_store w !! r = Some rm → room_status rm = AVAILABLE →
  consistent
    (mkWorld (<[r := set_room_status BOOKED rm]> (room_store w))
       (res_store w ++ [mkReservation id guest r cin cout CONFIRMED])
       (set_reservations (<[id := length (res_store w)]> (reservations (hms w)))
          (hms w))
       (payments w)).
Proof.
  intros (Hcl & Hh & Hex) Hr Hs.
  set (made := mkReservation id guest r cin cout CONFIRMED).
  set (w' := mkWorld _ _ _ _).
  assert (Hfree : ∀ id' rv', active w id' = Some rv' →
                    res_status rv' = CONFIRMED → res_room rv' ≠ r).
  { intros id' rv' Ha Hc Heq. destruct (Hh id' rv' Ha Hc) as (s & Hst & Hne).
    rewrite Heq in Hst. unfold status_of in Hst. rewrite Hr in Hst.
    simpl in Hst. congruence. }
  assert (Hnew : active w' id = Some made).
  { unfold active. simpl. rewrite lookup_insert_eq.
    rewrite lookup_app_r by lia. by rewrite Nat.sub_diag. }
  assert (Hold : ∀ id', id' ≠ id → active w' id' = active w id').
  { intros id' Hne. unfold active. simpl. rewrite lookup_insert_ne by done.
    destruct (reservations (hms w) !! id') as [l|] eqn:Hid; [|done].
    apply lookup_app_l. by apply (Hcl id'). }
  split; [|split].
  - intros id' l H. simpl in *. rewrite length_app. simpl.
    destruct (decide (id = id')) as [<-|Hd].
    + rewrite lookup_insert_eq in H. injection H as <-. lia.
    + rewrite lookup_insert_ne in H by done. pose proof (Hcl id' l H). lia.
  - intros id' rv' Ha Hc. destruct (decide (id' = id)) as [->|Hd].
    + rewrite Hnew in Ha. injection Ha as <-. exists BOOKED.
      split; [|done]. unfold w'. by rewrite (status_of_insert w r rm).
    + rewrite (Hold id' Hd) in Ha.
      destruct (Hh id' rv' Ha Hc) as (s & Hst & Hne). exists s. split; [|done].
      unfold w'. rewrite status_of_insert_ne; [done|].
      intros Heq. by apply (Hfree id' rv' Ha Hc).
  - intros r0 id1 id2 (rv1 & H1 & Hc1 & Hr1) (rv2 & H2 & Hc2 & Hr2).
    destruct (decide (id1 = id)) as [->|Hd1];
      destruct (decide (id2 = id)) as [->|Hd2]; [done| | |].
    + rewrite Hnew in H1. injection H1 as <-. rewrite (Hold id2 Hd2) in H2.
      destruct (Hfree id2 rv2 H2 Hc2). by rewrite Hr2, <- Hr1.
    + rewrite Hnew in H2. injection H2 as <-. rewrite (Hold id1 Hd1) in H1.
      destruct (Hfree id1 rv1 H1 Hc1). by rewrite Hr1, <- Hr2.
    + rewrite (Hold id1 Hd1) in H1. rewrite (Hold id2 Hd2) in H2.
      apply (Hex r0); [exists rv1 | exists rv2]; eauto.
Qed.

Lemma consistent_new_room w rm :
  consistent w →
  consistent (mkWorld (room_store w ++ [rm]) (res_store w) (hms w) (payments w)).
Proof.
  intros (Hcl & Hh & Hex). split; [|split].
  - exact Hcl.
  - intros id rv Ha Hc. destruct (Hh id rv Ha Hc) as (s & Hst & Hne).
    exists s. split; [|done]. unfold status_of in *. simpl.
    destruct (room_store w !! res_room rv) as [x|] eqn:Hx; [|done].
    by rewrite (lookup_app_l_Some _ _ _ _ Hx).
  - exact Hex.
Qed.

Lemma consistent_exec c w : consistent w → consistent (exec scale c w).
Proof.
  intros Hw. destruct c as [id ty price|guest|room|guest room cin cout uuid|id|id|id payment];
    simpl.
  - by apply consistent_new_room.
  - by apply (consistent_same_objects w).
  - unfold after, add_room. unfold_m.
    destruct (room_store w !! room); [|done]. by apply (consistent_same_objects w).
  - destruct (book_room_cases w guest room cin cout uuid) as [H|[H|(rm & Hr & Hs)]];
      unfold after; try (by rewrite H).
    rewrite (book_room_available w guest room rm cin cout uuid Hr Hs). simpl.
    by apply consistent_booked.
  - destruct (cancel_reservation_cases w id)
      as [H|(l & rv & Hid & Hl & Hc & [H|(rm & Hr & Hs)])]; try (by rewrite H).
    + rewrite H. by apply consistent_cancelled.
    + unfold after. rewrite (cancel_reservation_occupied w id l rv rm Hid Hl Hc Hr Hs).
      simpl.
      apply (consistent_released
               (mkWorld (room_store w)
                  (<[l := set_res_status CANCELLED rv]> (res_store w))
                  (hms w) (payments w)) (res_room rv) rm id);
        [by apply consistent_cancelled | done |].
      intros id' (rv' & Ha & Hc' & Hr').
      destruct Hw as (_ & _ & Hex). apply (Hex (res_room rv)).
      * exists rv'. split; [|done]. by apply (active_after_cancelled w l rv).
      * exists rv. split; [|done]. unfold active. by rewrite Hid.
  - destruct (check_in_cases w id) as [H|(l & rv & rm & Hid & Hl & Hc & Hr & Hs)];
      [by rewrite H|].
    unfold after. rewrite (check_in_booked w id l rv rm Hid Hl Hc Hr Hs). simpl.
    by apply consistent_room_taken.
  - destruct (check_out_cases w id payment)
      as [[ps H]|(l & rv & rm & Hid & Hl & Hc & Hr & Hs & Hp)].
    + rewrite H. by apply (consistent_same_objects w).
    + unfold after.
      rewrite (check_out_paid_occupied w id l rv rm payment Hid Hl Hc Hr Hp Hs).
      simpl.
      apply (consistent_same_objects
               (mkWorld (<[res_room rv := set_room_status AVAILABLE rm]> (room_store w))
                  (res_store w)
                  (set_reservations (delete id (reservations (hms w))) (hms w))
                  (payments w))); [done..|].
      apply consistent_released; [done..|].
      intros id' Hid'. destruct Hw as (_ & _ & Hex).
      apply (Hex (res_room rv)); [done|].
      exists rv. split; [|done]. unfold active. by rewrite Hid.
Qed.

Lemma consistent_run cs w : consistent w → consistent (run scale cs w).
Proof.
  revert w. induction cs as [|c cs IH]; intros w Hw; [done|].
  simpl. apply IH. by apply consistent_exec.
Qed.

(** A room with an indexed [CONFIRMED] reservation is never [AVAILABLE]. *)
Lemma confirmed_reservation_holds_room cs :
  held (run scale cs initial).
Proof. apply (consistent_run cs initial consistent_initial). Qed.

(** *** Counting the confirmed reservations of a room *)

Lemma length_le_1 {A} (xs : list A) :
  NoDup xs → (∀ x y, x ∈ xs → y ∈ xs → x = y) → (length xs ≤ 1)%nat.
Proof.
  intros Hnd Heq. destruct xs as [|x [|y xs]]; simpl; [lia..|].
  apply NoDup_cons in Hnd as [Hx _]. destruct Hx.
  rewrite (Heq x y); [left | left | right; left].
Qed.

Lemma is_confirmed_for_true w r id l :
  reservations (hms w) !! id = Some l → is_confirmed_for w r l = true →
  confirmed_for w r id.
Proof.
  intros Hid H. unfold is_confirmed_for in H.
  destruct (res_store w !! l) as [rv|] eqn:Hl; [|done].
  apply bool_decide_eq_true in H as [Hc Hr].
  exists rv. unfold active. by rewrite Hid.
Qed.

Lemma exclusive_count w r : exclusive w → (confirmed_count w r ≤ 1)%nat.
Proof.
  intros Hex. unfold confirmed_count. apply length_le_1.
  - apply NoDup_filter, NoDup_map_to_list.
  - intros [k1 l1] [k2 l2] H1 H2.
    apply list_elem_of_filter in H1 as [P1 H1].
    apply list_elem_of_filter in H2 as [P2 H2].
    apply elem_of_map_to_list in H1, H2. simpl in *.
    assert (k1 = k2) as -> by (apply (Hex r); by eapply is_confirmed_for_true).
    congruence.
Qed.

(** Two identifiers of indexed [CONFIRMED] reservations of one room are equal. *)
Lemma confirmed_reservation_unique cs r id1 id2 :
  confirmed_for (run scale cs initial) r id1 →
  confirmed_for (run scale cs initial) r id2 → id1 = id2.
Proof.
  destruct (consistent_run cs initial consistent_initial) as (_ & _ & Hex).
  apply Hex.
Qed.

(** C4: in the world left by any sequence of constructor and front-desk
    calls ([book_room], [check_in], [check_out], [cancel_reservation] among
    them), every room is referenced by at most one indexed reservation whose
    status is [CONFIRMED]. *)
Theorem at_most_one_confirmed_reservation cs r :
  (confirmed_count (run scale cs initial) r ≤ 1)%nat.
Proof.
  destruct (consistent_run cs initial consistent_initial) as (_ & _ & Hex).
  by apply exclusive_count.
Qed.

(** *** Concurrent callers of [book_room] *)

Implicit Types (c : config Price) (q : request) (p : pc).

Lemma pc_at_update c i q p0 p w b j :
  threads c !! i = Some (q, p0) →
  pc_at (mkConfig w b (<[i := (q, p)]> (threads c))) j
    = if decide (j = i) then Some p else pc_at c j.
Proof.
  intros Hi. unfold pc_at. simpl. case_decide as Hd.
  - subst j. by rewrite (lookup_insert_same _ _ _ _ Hi).
  - by rewrite list_lookup_insert_ne.
Qed.

Lemma pc_at_lookup c i q p : threads c !! i = Some (q, p) → pc_at c i = Some p.
Proof. intros H. unfold pc_at. by rewrite H. Qed.

Lemma threads_update c i q p0 p j q' p' :
  threads c !! i = Some (q, p0) →
  <[i := (q, p)]> (threads c) !! j = Some (q', p') →
  ∃ p'', threads c !! j = Some (q', p'').
Proof.
  intros Hi Hj. destruct (decide (j = i)) as [->|Hd].
  - rewrite (lookup_insert_same _ _ _ _ Hi) in Hj. injection Hj as <- <-. eauto.
  - rewrite list_lookup_insert_ne in Hj by done. eauto.
Qed.

Lemma index_reservation_returns q w :
  ∃ l w', index_reservation q w = (Returned (Some l), w') ∧
          room_store w' = room_store w.
Proof. by eexists _, _. Qed.

(** Rewrite the program counters of an updated thread list and split on
    whether the thread looked at is the one that moved. *)
Ltac split_pcs Hi :=
  repeat match goal with
  | H : context [pc_at (mkConfig _ _ (<[_ := _]> _)) _] |- _ =>
      rewrite (pc_at_update _ _ _ _ _ _ _ _ Hi) in H
  | |- context [pc_at (mkConfig _ _ (<[_ := _]> _)) _] =>
      rewrite (pc_at_update _ _ _ _ _ _ _ _ Hi)
  end;
  repeat case_decide; simplify_eq; simpl in *.

Lemma safe_spawn w r rm qs :
  room_store w !! r = Some rm → room_status rm = AVAILABLE →
  Forall (λ q, req_room q = r) qs →
  safe r (spawn w qs).
Proof.
  intros Hr Hs Hqs.
  assert (Hpc : ∀ i p, pc_at (spawn w qs) i = Some p → p = AtEntry).
  { intros i p. unfold pc_at, spawn. simpl. rewrite list_lookup_fmap.
    destruct (qs !! i); simpl; congruence. }
  split; simpl.
  - intros i q p. rewrite list_lookup_fmap.
    destruct (qs !! i) as [q'|] eqn:Hq; simpl; [|done]. intros [= <- <-].
    by apply (Forall_lookup_1 _ _ _ _ Hqs Hq).
  - by rewrite Hr.
  - intros i j p p' Hi _ Hin. by rewrite (Hpc i p Hi) in Hin.
  - intros i p Hi Hin. by rewrite (Hpc i p Hi) in Hin.
  - intros _ i p Hi. by rewrite (Hpc i p Hi).
  - intros Hne. destruct Hne. unfold status_of. by rewrite Hr; simpl; rewrite Hs.
  - intros i j p p' Hi _ Hin. by rewrite (Hpc i p Hi) in Hin.
  - intros i Hi. by pose proof (Hpc i _ Hi).
  - intros i e Hi. by pose proof (Hpc i _ Hi).
  - done.
Qed.

Lemma safe_enter r c i q :
  safe r c → threads c !! i = Some (q, AtEntry) → hms_lock c = false →
  safe r (move c i q HoldsLock (world c)).
Proof.
  intros [Hrm Hst Hmx Hlk Hfr Htk Hwn Hsw Hnr Hho] Hi Hfree.
  pose proof (pc_at_lookup _ _ _ _ Hi) as Hpi.
  assert (Hout : ∀ j p, pc_at c j = Some p → inside p = true → False)
    by (intros j p Hj Hin; rewrite (Hlk j p Hj Hin) in Hfree; done).
  unfold move. split; simpl; try done.
  - intros j q' p' Hj. destruct (threads_update _ _ _ _ _ _ _ _ Hi Hj) as [p'' H'].
    by apply (Hrm j q' p'').
  - intros j k p p' Hj Hk Hin Hin'. split_pcs Hi; try done; exfalso; eauto.
  - intros Hav j p Hj. split_pcs Hi; try done; eauto.
  - intros Hne. destruct (Htk Hne) as (j & p & Hj & Hw). exists j, p.
    split_pcs Hi; try done; congruence.
  - intros j k p p' Hj Hk Hw Hw'. split_pcs Hi; try done; eauto.
  - intros j Hj. split_pcs Hi; try done; eauto.
  - intros j e Hj. split_pcs Hi; try done; by eapply Hnr.
  - intros _. exists i, HoldsLock. by split_pcs Hi.
Qed.

Lemma safe_saw_available r c i q :
  safe r c → threads c !! i = Some (q, HoldsLock) →
  status_of (world c) r = Some AVAILABLE →
  safe r (move c i q SawAvailable (world c)).
Proof.
  intros [Hrm Hst Hmx Hlk Hfr Htk Hwn Hsw Hnr Hho] Hi Hav.
  pose proof (pc_at_lookup _ _ _ _ Hi) as Hpi.
  unfold move. split; simpl; try done.
  - intros j q' p' Hj. destruct (threads_update _ _ _ _ _ _ _ _ Hi Hj) as [p'' H'].
    by apply (Hrm j q' p'').
  - intros j k p p' Hj Hk Hin Hin'.
    split_pcs Hi; try done; eauto; symmetry; eauto.
  - intros _ j p Hj. split_pcs Hi; try done; eauto.
  - intros j k p p' Hj Hk Hw Hw'. split_pcs Hi; try done; eauto.
  - intros j e Hj. split_pcs Hi; try done; by eapply Hnr.
  - intros _. exists i, SawAvailable. by split_pcs Hi.
Qed.

Lemma safe_saw_unavailable r c i q :
  safe r c → threads c !! i = Some (q, HoldsLock) →
  status_of (world c) r ≠ Some AVAILABLE →
  safe r (leave c i q (Returned None) (world c)).
Proof.
  intros [Hrm Hst Hmx Hlk Hfr Htk Hwn Hsw Hnr Hho] Hi Hne.
  pose proof (pc_at_lookup _ _ _ _ Hi) as Hpi.
  unfold leave. split; simpl; try done.
  - intros j q' p' Hj. destruct (threads_update _ _ _ _ _ _ _ _ Hi Hj) as [p'' H'].
    by apply (Hrm j q' p'').
  - intros j k p p' Hj Hk Hin Hin'. split_pcs Hi; try done; eauto.
  - intros j p Hj Hin. split_pcs Hi; try done.
    assert (i = j) by (by eapply (Hmx i j HoldsLock p)). congruence.
  - intros _. destruct (Htk Hne) as (j & p & Hj & Hw). exists j, p.
    split_pcs Hi; try done; congruence.
  - intros j k p p' Hj Hk Hw Hw'. split_pcs Hi; try done; eauto.
  - intros j Hj. split_pcs Hi; try done; eauto.
  - intros j e Hj. split_pcs Hi; try done; by eapply Hnr.
Qed.

Lemma safe_book r c i q rm :
  safe r c → threads c !! i = Some (q, SawAvailable) →
  room_store (world c) !! r = Some rm →
  safe r (move c i q RoomBooked
            (mkWorld (<[r := set_room_status BOOKED rm]> (room_store (world c)))
                     (res_store (world c)) (hms (world c)) (payments (world c)))).
Proof.
  intros [Hrm Hst Hmx Hlk Hfr Htk Hwn Hsw Hnr Hho] Hi Hr.
  pose proof (pc_at_lookup _ _ _ _ Hi) as Hpi.
  pose proof (Hsw i Hpi) as Hav.
  assert (Hbooked : ∀ ps h rss,
            status_of (mkWorld (<[r := set_room_status BOOKED rm]>
                                  (room_store (world c))) rss h ps) r = Some BOOKED)
    by (intros; by rewrite (status_of_insert (world c) r rm)).
  unfold move. split; simpl; try done.
  - intros j q' p' Hj. destruct (threads_update _ _ _ _ _ _ _ _ Hi Hj) as [p'' H'].
    by apply (Hrm j q' p'').
  - by rewrite (lookup_insert_same _ _ _ _ Hr).
  - intros j k p p' Hj Hk Hin Hin'.
    split_pcs Hi; try done; eauto; symmetry; eauto.
  - rewrite Hbooked. done.
  - intros _. exists i, RoomBooked. by split_pcs Hi.
  - intros j k p p' Hj Hk Hw Hw'.
    split_pcs Hi; try done; exfalso;
      match goal with
      | H : pc_at c _ = Some _ |- _ => destruct (Hfr Hav _ _ H); congruence
      end.
  - intros j Hj. split_pcs Hi; try done. exfalso.
    assert (j = i) by (by eapply (Hmx j i SawAvailable SawAvailable)). done.
  - intros j e Hj. split_pcs Hi; try done; by eapply Hnr.
  - intros _. exists i, RoomBooked. by split_pcs Hi.
Qed.

Lemma safe_index r c i q l w' :
  safe r c → threads c !! i = Some (q, RoomBooked) →
  room_store w' = room_store (world c) →
  safe r (leave c i q (Returned (Some l)) w').
Proof.
  intros [Hrm Hst Hmx Hlk Hfr Htk Hwn Hsw Hnr Hho] Hi Hsame.
  pose proof (pc_at_lookup _ _ _ _ Hi) as Hpi.
  assert (Hstat : status_of w' r = status_of (world c) r)
    by (unfold status_of; by rewrite Hsame).
  unfold leave. split; simpl; rewrite ?Hstat, ?Hsame; try done.
  - intros j q' p' Hj. destruct (threads_update _ _ _ _ _ _ _ _ Hi Hj) as [p'' H'].
    by apply (Hrm j q' p'').
  - intros j k p p' Hj Hk Hin Hin'. split_pcs Hi; try done; eauto.
  - intros j p Hj Hin. split_pcs Hi; try done.
    assert (i = j) by (by eapply (Hmx i j RoomBooked p)). congruence.
  - intros Hav j p Hj. split_pcs Hi; try done; eauto.
    by destruct (Hfr Hav _ _ Hpi).
  - intros _. exists i. eexists. by split_pcs Hi.
  - intros j k p p' Hj Hk Hw Hw'.
    split_pcs Hi; try done; eauto; symmetry; eauto.
  - intros j Hj. split_pcs Hi; try done; eauto.
  - intros j e Hj. split_pcs Hi; try done; by eapply Hnr.
Qed.

Lemma safe_step r c i : safe r c → safe r (step_thread i c).
Proof.
  intros Hc. unfold step_thread.
  destruct (threads c !! i) as [[q p]|] eqn:Hi; [|done].
  pose proof (safe_room _ _ _ Hc i q p Hi) as Hq.
  destruct (safe_store _ _ _ Hc) as [rm Hr].
  destruct p as [| | | |o]; [| | | |done].
  - destruct (hms_lock c) eqn:Hl; [done|]. by apply safe_enter.
  - rewrite Hq. unfold load_room. rewrite Hr. case_decide as Hs.
    + apply safe_saw_available; [done..|].
      unfold status_of. by rewrite Hr; simpl; rewrite Hs.
    + apply safe_saw_unavailable; [done..|].
      unfold status_of. rewrite Hr. simpl. congruence.
  - rewrite Hq.
    pose proof (safe_saw _ _ _ Hc i (pc_at_lookup _ _ _ _ Hi)) as Hav.
    destruct (status_of_lookup _ _ _ Hav) as (rm' & Hr' & Hs).
    rewrite (Room_book_available _ _ _ Hr' Hs). by apply safe_book.
  - destruct (index_reservation_returns q (world c)) as (l & w' & -> & Hsame).
    by apply safe_index.
Qed.

Lemma safe_run r s c : safe r c → safe r (run_schedule s c).
Proof.
  revert c. induction s as [|i s IH]; intros c Hc; [done|].
  simpl. apply IH. by apply safe_step.
Qed.

(** A step changes program counters only: each thread keeps its request. *)
Lemma step_thread_requests c i : (threads (step_thread i c)).*1 = (threads c).*1.
Proof.
  assert (Hup : ∀ q p p', threads c !! i = Some (q, p) →
            (<[i := (q, p')]> (threads c)).*1 = (threads c).*1).
  { intros q p p' Hi. rewrite list_fmap_insert. simpl.
    apply list_insert_id. by rewrite list_lookup_fmap, Hi. }
  unfold step_thread.
  destruct (threads c !! i) as [[q p]|] eqn:Hi; [|done].
  destruct p as [| | | |o]; [| | | |done].
  - destruct (hms_lock c); [done|]. by apply (Hup q AtEntry).
  - destruct (load_room (req_room q) (world c)) as [[rm|e] w'];
      [case_decide|]; by apply (Hup q HoldsLock).
  - destruct (Room_book (req_room q) (world c)) as [[[]|e] w'];
      by apply (Hup q SawAvailable).
  - destruct (index_reservation q (world c)) as [o w'].
    by apply (Hup q RoomBooked).
Qed.

Lemma run_schedule_requests s w qs :
  (threads (run_schedule s (spawn w qs))).*1 = qs.
Proof.
  assert (H : ∀ c, (threads (run_schedule s c)).*1 = (threads c).*1).
  { induction s as [|i s IH]; intros c; [done|].
    simpl. rewrite IH. apply step_thread_requests. }
  rewrite H. unfold spawn. simpl. rewrite <- list_fmap_compose.
  apply list_fmap_id.
Qed.

(** If exactly the element at [i] satisfies [f] and all the others satisfy
    [g], then one element satisfies [f] and all but one satisfy [g]. *)
Lemma count_one_and_rest {A} (f g : A → bool) (xs : list A) i x :
  xs !! i = Some x → f x = true → g x = false →
  (∀ j y, j ≠ i → xs !! j = Some y → f y = false ∧ g y = true) →
  length (List.filter f xs) = 1 ∧
  length (List.filter g xs) = (length xs - 1)%nat.
Proof.
  revert i. induction xs as [|y xs IH]; intros i Hi Hf Hg Hrest; [done|].
  destruct i as [|i]; simpl in *.
  - injection Hi as ->. rewrite Hf, Hg. simpl.
    assert (Hall : ∀ y, In y xs → f y = false ∧ g y = true).
    { intros y Hy. apply list_elem_of_In, list_elem_of_lookup in Hy as [j Hj].
      by apply (Hrest (S j)). }
    assert (List.filter f xs = []) as ->.
    { clear -Hall. induction xs as [|y xs IH]; [done|]. simpl.
      destruct (Hall y) as [-> _]; [by left|]. apply IH.
      intros z Hz. apply Hall. by right. }
    split; [done|]. rewrite Nat.sub_0_r.
    clear -Hall. induction xs as [|y xs IH]; [done|]. simpl.
    destruct (Hall y) as [_ ->]; [by left|]. simpl. f_equal. apply IH.
    intros z Hz. apply Hall. by right.
  - destruct (Hrest 0%nat y) as [-> ->]; [done..|]. simpl.
    destruct (IH i Hi Hf Hg) as [-> ->].
    + intros j z Hj. apply (Hrest (S j)). congruence.
    + split; [done|]. apply lookup_lt_Some in Hi. lia.
Qed.

(** *** Every caller returns *)

Lemma sum_list_update {A} (f : A → nat) (xs : list A) i x y :
  xs !! i = Some x →
  (sum_list (map f (<[i := y]> xs)) + f x = sum_list (map f xs) + f y)%nat.
Proof.
  revert i. induction xs as [|z xs IH]; intros i Hi; [done|].
  destruct i as [|i]; simpl in *.
  - injection Hi as ->. lia.
  - pose proof (IH i Hi). lia.
Qed.

(** A thread that is not blocked on the lock and has not finished moves on. *)
Lemma step_thread_progress c i q p :
  threads c !! i = Some (q, p) → is_done (q, p) = false →
  (p = AtEntry → hms_lock c = false) →
  (remaining (step_thread i c) < remaining c)%nat.
Proof.
  intros Hi Hnd Hen.
  assert (Hup : ∀ w b p', (steps_left p' < steps_left p)%nat →
            (remaining (mkConfig w b (<[i := (q, p')]> (threads c)))
               < remaining c)%nat).
  { intros w b p' Hlt. unfold remaining. simpl.
    pose proof (sum_list_update (λ t : request * pc, steps_left t.2)
                  (threads c) i (q, p) (q, p') Hi) as H.
    simpl in H. lia. }
  unfold step_thread. rewrite Hi.
  destruct p as [| | | |o]; [| | | |done].
  - rewrite (Hen eq_refl). apply Hup. simpl. lia.
  - destruct (load_room (req_room q) (world c)) as [[rm|e] w'];
      [case_decide|]; apply Hup; simpl; lia.
  - destruct (Room_book (req_room q) (world c)) as [[[]|e] w'];
      apply Hup; simpl; lia.
  - destruct (index_reservation q (world c)) as [o w'].
    apply Hup. simpl. lia.
Qed.

Lemma forallb_false_lookup {A} (f : A → bool) (xs : list A) :
  forallb f xs = false → ∃ i x, xs !! i = Some x ∧ f x = false.
Proof.
  induction xs as [|y xs IH]; [done|]. simpl.
  destruct (f y) eqn:Hy; simpl.
  - intros H. destruct (IH H) as (i & x & Hi & Hx). by exists (S i), x.
  - intros _. by exists 0%nat, y.
Qed.

Lemma safe_enabled r c :
  safe r c → all_done c = false →
  ∃ i q p, threads c !! i = Some (q, p) ∧ is_done (q, p) = false ∧
           (p = AtEntry → hms_lock c = false).
Proof.
  intros Hc Hnd. destruct (hms_lock c) eqn:Hl.
  - destruct (safe_holder _ _ _ Hc Hl) as (i & p & Hi & Hin).
    unfold pc_at in Hi. destruct (threads c !! i) as [[q p']|] eqn:Hq; [|done].
    injection Hi as ->. exists i, q, p.
    split; [done|]. split; [by destruct p | by intros ->].
  - destruct (forallb_false_lookup _ _ Hnd) as (i & [q p] & Hi & Hp).
    by exists i, q, p.
Qed.

Lemma safe_completes r c :
  safe r c → ∃ s, all_done (run_schedule s c) = true.
Proof.
  remember (remaining c) as n eqn:Hn. revert c Hn.
  induction (lt_wf n) as [n _ IH]. intros c -> Hc.
  destruct (all_done c) eqn:Hd; [by exists []|].
  destruct (safe_enabled r c Hc Hd) as (i & q & p & Hi & Hp & Hen).
  destruct (IH (remaining (step_thread i c))
              (step_thread_progress c i q p Hi Hp Hen)
              (step_thread i c) eq_refl (safe_step r c i Hc)) as [s Hs].
  by exists (i :: s).
Qed.

Lemma run_schedule_app s s' c :
  run_schedule (s ++ s') c = run_schedule s' (run_schedule s c).
Proof. apply fold_left_app. Qed.

(** C8: callers of [book_room] on one [AVAILABLE] room, interleaved in any
    way under the front desk's lock.  Whatever has run so far, the calls can
    all be run to their end; and once all have returned, exactly one of them
    has a reservation and every other one has [None], the answer for a room
    that is not available: one success, [N - 1] refusals. *)
Theorem concurrent_book_one_winner w r rm qs s :
  room_store w !! r = Some rm → room_status rm = AVAILABLE →
  Forall (λ q, req_room q = r) qs → qs ≠ [] →
  (∃ s', all_done (run_schedule (s ++ s') (spawn w qs)) = true) ∧
  (all_done (run_schedule s (spawn w qs)) = true →
   let c := run_schedule s (spawn w qs) in
   (∃ i q l, threads c !! i = Some (q, Done (Returned (Some l))) ∧
      ∀ j q' p, j ≠ i → threads c !! j = Some (q', p) →
                p = Done (Returned None)) ∧
   callers got_reservation c = 1%nat ∧
   callers got_none c = (length qs - 1)%nat).
Proof.
  intros Hr Hs Hqs Hne.
  pose proof (safe_run r s _ (safe_spawn w r rm qs Hr Hs Hqs)) as Hc.
  split.
  { destruct (safe_completes r _ Hc) as [s' Hs']. exists s'.
    by rewrite run_schedule_app. }
  intros Hdone c. fold c in Hc, Hdone.
  assert (Hlen : length (threads c) = length qs).
  { pose proof (f_equal length (run_schedule_requests s w qs)) as H.
    by rewrite length_fmap in H. }
  assert (Hd : ∀ i p, pc_at c i = Some p → ∃ o, p = Done o).
  { intros i p Hi. unfold pc_at in Hi.
    destruct (threads c !! i) as [[q p']|] eqn:Hq; [|done]. injection Hi as ->.
    unfold all_done in Hdone. rewrite forallb_forall in Hdone.
    assert (Hin : In (q, p) (threads c))
      by (apply list_elem_of_In, list_elem_of_lookup; eauto).
    specialize (Hdone _ Hin). destruct p; try done. eauto. }
  assert (Hres : ∀ i p, pc_at c i = Some p →
            (∃ l, p = Done (Returned (Some l))) ∨ p = Done (Returned None)).
  { intros i p Hi. destruct (Hd i p Hi) as [[[l|]|e] ->]; [eauto..|].
    by destruct (safe_no_raise _ _ _ Hc i e). }
  assert (Hwin : ∃ i p, pc_at c i = Some p ∧ winner p = true).
  { destruct (decide (status_of (world c) r = Some AVAILABLE)) as [Hav|Hav];
      [|by apply (safe_taken _ _ _ Hc)].
    destruct (threads c) as [|[q p] ts] eqn:Hts.
    { destruct qs; [done | simpl in Hlen; lia]. }
    assert (H0 : pc_at c 0 = Some p) by (unfold pc_at; by rewrite Hts).
    destruct (safe_free _ _ _ Hc Hav 0%nat p H0) as [Hw Hn].
    destruct (Hres _ _ H0) as [[l ->]| ->]; done. }
  destruct Hwin as (i & p & Hi & Hw).
  destruct (Hres i p Hi) as [[l ->]| ->]; [|done].
  unfold pc_at in Hi. destruct (threads c !! i) as [[q p']|] eqn:Hq; [|done].
  injection Hi as ->.
  assert (Hothers : ∀ j q' p, j ≠ i → threads c !! j = Some (q', p) →
                      p = Done (Returned None)).
  { intros j q' p Hji Hj. pose proof (pc_at_lookup _ _ _ _ Hj) as Hpj.
    destruct (Hres j p Hpj) as [[l' ->]| ->]; [|done]. destruct Hji.
    by apply (safe_winner _ _ _ Hc j i _ _ Hpj (pc_at_lookup _ _ _ _ Hq)). }
  split; [by exists i, q, l|]. rewrite <- Hlen. unfold callers.
  apply (count_one_and_rest got_reservation got_none (threads c) i _ Hq);
    [done..|].
  intros j [q' p] Hji Hj. by rewrite (Hothers j q' p Hji Hj).
Qed.

Lemma step_thread_done c i q o :
  threads c !! i = Some (q, Done o) → step_thread i c = c.
Proof. intros Hi. unfold step_thread. by rewrite Hi. Qed.

(** The statements a thread steps through are those of [book_room]: a caller
    that runs alone ends with the result and the world of the call. *)
Lemma solo_run_is_book_room c i q :
  threads c !! i = Some (q, AtEntry) → hms_lock c = false →
  let call := book_room (req_guest q) (req_room q) (req_in q) (req_out q)
                        (req_uuid q) in
  let c' := run_schedule [i; i; i; i] c in
  world c' = after call (world c) ∧
  pc_at c' i = Some (Done (result call (world c))) ∧
  hms_lock c' = false.
Proof.
  destruct c as [w b ts]. simpl. intros Hi ->.
  assert (Hnow : ∀ p w' b', ∃ ts', ts' = <[i := (q, p)]> ts ∧
            ts' !! i = Some (q, p) ∧
            (∀ p', <[i := (q, p')]> ts' = <[i := (q, p')]> ts) ∧
            pc_at (mkConfig w' b' ts') i = Some p).
  { intros p w' b'. eexists. split; [done|].
    pose proof (lookup_insert_same _ _ _ (q, p) Hi) as H.
    split; [done|]. split; [intros; apply list_insert_insert_eq|].
    unfold pc_at. simpl. by rewrite H. }
  unfold run_schedule. simpl.
  assert (H1 : step_thread i (mkConfig w false ts)
               = mkConfig w true (<[i := (q, HoldsLock)]> ts))
    by (unfold step_thread; simpl; by rewrite Hi).
  rewrite H1. clear H1.
  destruct (Hnow HoldsLock w true) as (t1 & <- & Hi1 & Hin1 & _).
  destruct (room_store w !! req_room q) as [rm|] eqn:Hr.
  - destruct (decide (room_status rm = AVAILABLE)) as [Hs|Hs].
    + assert (H2 : step_thread i (mkConfig w true t1)
                   = mkConfig w true (<[i := (q, SawAvailable)]> ts)).
      { unfold step_thread. simpl. rewrite Hi1. unfold load_room. rewrite Hr.
        case_decide; [|done]. unfold move. simpl. by rewrite Hin1. }
      rewrite H2. clear H2.
      destruct (Hnow SawAvailable w true) as (t2 & <- & Hi2 & Hin2 & _).
      pose proof (Room_book_available w _ _ Hr Hs) as Hbook.
      set (wb := mkWorld (<[req_room q := set_room_status BOOKED rm]> (room_store w))
                   (res_store w) (hms w) (payments w)) in *.
      assert (H3 : step_thread i (mkConfig w true t2)
                   = mkConfig wb true (<[i := (q, RoomBooked)]> ts)).
      { unfold step_thread. simpl. rewrite Hi2, Hbook. unfold move. simpl.
        by rewrite Hin2. }
      rewrite H3. clear H3.
      destruct (Hnow RoomBooked wb true) as (t3 & <- & Hi3 & Hin3 & _).
      unfold step_thread. simpl. rewrite Hi3. unfold leave. simpl.
      rewrite Hin3. unfold result, after.
      rewrite (book_room_available w (req_guest q) _ _ (req_in q) (req_out q)
                 (req_uuid q) Hr Hs).
      simpl. split; [done|]. split; [|done].
      unfold pc_at. simpl. by rewrite (lookup_insert_same _ _ _ _ Hi).
    + assert (H2 : step_thread i (mkConfig w true t1)
                   = mkConfig w false (<[i := (q, Done (Returned None))]> ts)).
      { unfold step_thread. simpl. rewrite Hi1. unfold load_room. rewrite Hr.
        case_decide; [done|]. unfold leave. simpl. by rewrite Hin1. }
      rewrite H2. clear H2.
      destruct (Hnow (Done (Returned None)) w false) as (t2 & <- & Hi2 & _ & Hpc).
      rewrite !(step_thread_done (mkConfig w false t2) i q _ Hi2).
      unfold result, after.
      rewrite (book_room_unavailable w (req_guest q) _ _ (req_in q) (req_out q)
                 (req_uuid q) Hr Hs).
      simpl. split; [done|]. split; [exact Hpc | done].
  - assert (H2 : step_thread i (mkConfig w true t1)
                 = mkConfig w false (<[i := (q, Done (Raised NoSuchObject))]> ts)).
    { unfold step_thread. simpl. rewrite Hi1. unfold load_room. rewrite Hr.
      unfold leave. simpl. by rewrite Hin1. }
    rewrite H2. clear H2.
    destruct (Hnow (Done (Raised NoSuchObject)) w false)
      as (t2 & <- & Hi2 & _ & Hpc).
    rewrite !(step_thread_done (mkConfig w false t2) i q _ Hi2).
    unfold result, after, book_room. unfold_m. rewrite Hr.
    simpl. split; [done|]. split; [exact Hpc | done].
Qed.

End Properties.

(** * Scenarios *)

(** The worlds used below are reached from the initial world by calls of
    the public interface. *)
Lemma fixtures_reached :
  booked = run Z.mul [NewRoom "R1" SINGLE 100%Z;
                      BookRoom guest1 0 0%Z 2%Z 0%N] initial ∧
  in_use = run Z.mul [NewRoom "R1" SINGLE 100%Z;
                      BookRoom guest1 0 0%Z 2%Z 0%N;
                      CheckIn "RES00000000"] initial.
Proof. split; reflexivity. Qed.

(** The stay of the specification: a declined check-out changes nothing, the
    accepted one is asked for 200, frees the room and drops the reservation. *)
Example scenario_stay :
  status_of in_use 0 = Some OCCUPIED ∧
  check_out Z.mul "RES00000000" declining in_use
    = (Raised (ValueError "Payment failed."),
       mkWorld (room_store in_use) (res_store in_use) (hms in_use) [200%Z]) ∧
  let w := run Z.mul [CheckOut "RES00000000" declining;
                      CheckOut "RES00000000" CashPayment] in_use in
  status_of w 0 = Some AVAILABLE ∧ active w "RES00000000" = None ∧
  payments w = [200%Z; 200%Z].
Proof. repeat split; reflexivity. Qed.

(** A reservation dropped from the index by a paid [check_out] keeps the
    status [CONFIRMED] as an object; the claims count indexed reservations. *)
Example finished_stay_keeps_status :
  let w := run Z.mul [CheckOut "RES00000000" CashPayment;
                      BookRoom guest1 0 4%Z 6%Z (2 ^ 96)%N] in_use in
  res_status <$> res_store w !! 0%nat = Some CONFIRMED ∧
  res_status <$> res_store w !! 1%nat = Some CONFIRMED ∧
  active w "RES00000000" = None ∧
  confirmed_count w 0 = 1%nat.
Proof. repeat split; reflexivity. Qed.

Lemma book_then_cancel_witness :
  room_store one_room !! 0%nat = Some (room1 AVAILABLE) ∧
  room_status (room1 AVAILABLE) = AVAILABLE ∧
  let wb := after (book_room guest1 0 0%Z 2%Z 0%N) one_room in
  result (cancel_reservation "RES00000000") wb
    = Raised (ValueError "Room is not occupied.") ∧
  status_of (after (cancel_reservation "RES00000000") wb) 0 = Some BOOKED.
Proof.
  split; [reflexivity|]. split; [reflexivity|].
  destruct (book_then_cancel one_room guest1 0 (room1 AVAILABLE) 0%Z 2%Z 0%N
              eq_refl eq_refl) as (_ & (Hraise & Hroom & _) & _).
  split; [exact Hraise | exact Hroom].
Defined.

(** C2, counterexample: the reservation is indexed and [CONFIRMED], the
    declined [check_out] fails with "Payment failed.", and the following
    [check_out] with an accepting capability does not return: the guest never
    checked in and the room is [BOOKED]. *)
Lemma retry_before_arrival_raises :
  active booked "RES00000000" = Some res1 ∧
  result (check_out Z.mul "RES00000000" declining) booked
    = Raised (ValueError "Payment failed.") ∧
  result (check_out Z.mul "RES00000000" CreditCardPayment)
         (after (check_out Z.mul "RES00000000" declining) booked)
    = Raised (ValueError "Room is not occupied.").
Proof. repeat split; reflexivity. Qed.

Lemma declined_payment_commits_nothing_witness :
  active in_use "RES00000000" = Some res1 ∧
  res_status res1 = CONFIRMED ∧
  room_store in_use !! res_room res1 = Some (room1 OCCUPIED) ∧
  declining (amount_due Z.mul (room1 OCCUPIED) res1) = false ∧
  let w' := after (check_out Z.mul "RES00000000" declining) in_use in
  room_store w' = room_store in_use ∧ res_store w' = res_store in_use ∧
  hms w' = hms in_use ∧
  result (check_out Z.mul "RES00000000" CashPayment) w' = Returned tt.
Proof.
  do 4 (split; [reflexivity|]).
  destruct (declined_payment_commits_nothing Z.mul in_use "RES00000000" res1
              (room1 OCCUPIED) declining CashPayment
              eq_refl eq_refl eq_refl eq_refl) as (_ & Hr & Hs & Hh & Hretry).
  destruct (Hretry eq_refl eq_refl) as (Hok & _).
  repeat (split; [assumption|]). exact Hok.
Defined.

(** C3 (evaluation of the code at the failing input): after
    [book_room] and [cancel_reservation] with no [check_in] in between, the
    room is [BOOKED] although no indexed [CONFIRMED] reservation references
    it; the cancelled reservation is still in the index. *)
Theorem cancel_before_arrival_strands_room :
  let w := run Z.mul [NewRoom "R1" SINGLE 100%Z;
                      BookRoom guest1 0 0%Z 2%Z 0%N;
                      CancelReservation "RES00000000"] initial in
  status_of w 0 = Some BOOKED ∧
  confirmed_count w 0 = 0%nat ∧
  active w "RES00000000" = Some (set_res_status CANCELLED res1).
Proof. repeat split; reflexivity. Qed.

(** C5, counterexample: released from [BOOKED], the room raises and stays
    [BOOKED]. *)
Lemma release_from_booked_raises :
  status_of booked 0 = Some BOOKED ∧
  Room_check_out 0 booked = (Raised (ValueError "Room is not occupied."), booked).
Proof. split; reflexivity. Qed.

Lemma Room_check_out_only_from_occupied_witness :
  room_store in_use !! 0%nat = Some (room1 OCCUPIED) ∧
  result (Room_check_out 0) in_use = Returned tt ∧
  status_of (after (Room_check_out 0) in_use) 0 = Some AVAILABLE.
Proof.
  split; [reflexivity|].
  destruct (Room_check_out_only_from_occupied in_use 0 (room1 OCCUPIED) eq_refl)
    as (Hocc & _).
  exact (Hocc eq_refl).
Defined.

(** C6, counterexample: a reservation from day 5 to day 3 is constructed,
    [CONFIRMED], and indexed by [book_room]; its end date is not after its
    start date. *)
Lemma reservation_with_end_before_start :
  result (Reservation_new "RES00000000" guest1 0 5%Z 3%Z) one_room = Returned 0%nat ∧
  result (book_room guest1 0 5%Z 3%Z 0%N) one_room = Returned (Some 0%nat) ∧
  active (after (book_room guest1 0 5%Z 3%Z 0%N) one_room) "RES00000000"
    = Some (mkReservation "RES00000000" guest1 0 5%Z 3%Z CONFIRMED) ∧
  ¬ (check_out_date (mkReservation "RES00000000" guest1 0 5%Z 3%Z CONFIRMED)
     > check_in_date (mkReservation "RES00000000" guest1 0 5%Z 3%Z CONFIRMED))%Z.
Proof. repeat split; try reflexivity. simpl. lia. Qed.

Lemma Reservation_new_accepts_any_dates_witness :
  room_store one_room !! 0%nat = Some (room1 AVAILABLE) ∧
  room_status (room1 AVAILABLE) = AVAILABLE ∧
  active (after (book_room guest1 0 5%Z 3%Z 0%N) one_room) "RES00000000"
    = Some (mkReservation "RES00000000" guest1 0 5%Z 3%Z CONFIRMED).
Proof.
  split; [reflexivity|]. split; [reflexivity|].
  destruct (Reservation_new_accepts_any_dates one_room guest1 0 (room1 AVAILABLE)
              5%Z 3%Z 0%N eq_refl eq_refl) as (_ & _ & H).
  exact H.
Defined.

Lemma cancel_unknown_returns_silently_witness :
  reservations (hms booked) !! "RES0000BEEF" = None ∧
  cancel_reservation "RES0000BEEF" booked = (Returned tt, booked).
Proof.
  split; [reflexivity|].
  exact (cancel_unknown_returns_silently booked "RES0000BEEF" eq_refl).
Defined.

(** The sibling operations do report an identifier that is not indexed. *)
Example unknown_identifier_raises_elsewhere :
  result (check_in "RES0000BEEF") booked = Raised invalid_reservation ∧
  result (check_out Z.mul "RES0000BEEF" CashPayment) booked
    = Raised invalid_reservation.
Proof. split; reflexivity. Qed.

Lemma concurrent_book_one_winner_witness :
  room_store one_room !! 0%nat = Some (room1 AVAILABLE) ∧
  room_status (room1 AVAILABLE) = AVAILABLE ∧
  Forall (λ q, req_room q = 0%nat) three_callers ∧
  three_callers ≠ [] ∧
  all_done (run_schedule interleaving (spawn one_room three_callers)) = true ∧
  callers got_reservation
    (run_schedule interleaving (spawn one_room three_callers)) = 1%nat ∧
  callers got_none
    (run_schedule interleaving (spawn one_room three_callers)) = 2%nat.
Proof.
  assert (Hqs : Forall (λ q, req_room q = 0%nat) three_callers)
    by (repeat constructor).
  assert (Hne : three_callers ≠ []) by discriminate.
  do 5 (split; [first [reflexivity | assumption]|]).
  destruct (concurrent_book_one_winner one_room 0 (room1 AVAILABLE)
              three_callers interleaving eq_refl eq_refl Hqs Hne) as (_ & Hall).
  destruct (Hall eq_refl) as (_ & H1 & H2).
  split; [exact H1 | exact H2].
Defined.

Lemma cancel_before_arrival_raises_half_done_witness :
  active booked "RES00000000" = Some res1 ∧
  res_status res1 = CONFIRMED ∧
  status_of booked (res_room res1) = Some BOOKED ∧
  let w' := after (cancel_reservation "RES00000000") booked in
  result (cancel_reservation "RES00000000") booked
    = Raised (ValueError "Room is not occupied.") ∧
  active w' "RES00000000" = Some (set_res_status CANCELLED res1) ∧
  status_of w' (res_room res1) = Some BOOKED.
Proof.
  do 3 (split; [reflexivity|]).
  destruct (cancel_before_arrival_raises_half_done booked "RES00000000" res1
              eq_refl eq_refl eq_refl) as (Hraise & _ & Hact & _ & Hroom).
  split; [exact Hraise|]. split; [exact Hact | exact Hroom].
Defined.

Lemma check_out_before_arrival_pays_then_raises_witness :
  active booked "RES00000000" = Some res1 ∧
  res_status res1 = CONFIRMED ∧
  room_store booked !! res_room res1 = Some (room1 BOOKED) ∧
  room_status (room1 BOOKED) = BOOKED ∧
  CreditCardPayment (amount_due Z.mul (room1 BOOKED) res1) = true ∧
  check_out Z.mul "RES00000000" CreditCardPayment booked
    = (Raised (ValueError "Room is not occupied."),
       mkWorld (room_store booked) (res_store booked) (hms booked) [200%Z]).
Proof.
  do 5 (split; [reflexivity|]).
  destruct (check_out_before_arrival_pays_then_raises Z.mul booked "RES00000000"
              res1 (room1 BOOKED) CreditCardPayment
              eq_refl eq_refl eq_refl eq_refl eq_refl) as (H & _).
  exact H.
Defined.

(** * Further properties of the front desk *)

Section Further.

Context {Price : Type} (scale : Price → Z → Price).

Implicit Types (w : World Price) (r : nat) (l : nat) (id : string)
  (rm : Room Price) (rv : Reservation) (payment : Payment Price)
  (c : call Price) (cs : list (call Price))
  (rms : list (Room Price)) (h : HotelManagementSystem) (ps : list Price).

Ltac unfold_m :=
  unfold result, after, bind, ret, raise, get_hms, put_hms, load_room,
    store_room, load_res, store_res, process_payment in *.

Ltac step_m :=
  first
    [ progress simpl
    | match goal with
      | H : ?xs !! ?i = _ |- context [?xs !! ?i] => rewrite H
      | H : ?p ?a = _ |- context [if ?p ?a then _ else _] => rewrite H
      end
    | case_decide; [|exfalso; congruence]
    | case_decide; [exfalso; congruence|] ].

Ltac eval_m := unfold_m; repeat step_m; try done.

Lemma effect_same w c w' : w' = w → effect scale w c w'.
Proof. intros ->. constructor. Qed.

(** Every call has one of the listed effects. *)
Lemma exec_effect c w : effect scale w c (exec scale c w).
Proof.
  destruct c as [id ty price|guest|room|guest room cin cout uuid|id|id|id payment];
    simpl.
  - apply eff_new_room.
  - apply eff_add_guest.
  - destruct (room_store w !! room) as [rm|] eqn:Hr.
    + replace (after (add_room room) w) with
        (mkWorld (room_store w) (res_store w)
           (set_rooms (<[room_id rm := room]> (rooms (hms w))) (hms w)) (payments w))
        by (unfold add_room; eval_m).
      by apply eff_add_room.
    + apply effect_same. unfold add_room. eval_m.
  - destruct (book_room_cases w guest room cin cout uuid) as [H|[H|(rm & Hr & Hs)]];
      unfold after; try (rewrite H; by apply effect_same).
    rewrite (book_room_available w guest room rm cin cout uuid Hr Hs). simpl.
    by apply eff_book.
  - destruct (reservations (hms w) !! id) as [l|] eqn:Hid;
      [|apply effect_same; unfold cancel_reservation; eval_m].
    destruct (res_store w !! l) as [rv|] eqn:Hl;
      [|apply effect_same; unfold cancel_reservation, Reservation_cancel; eval_m].
    destruct (decide (res_status rv = CONFIRMED)) as [Hc|Hc];
      [|apply effect_same; unfold cancel_reservation, Reservation_cancel; eval_m].
    destruct (room_store w !! res_room rv) as [rm|] eqn:Hr.
    + destruct (decide (room_status rm = OCCUPIED)) as [Hs|Hs]; unfold after.
      * rewrite (cancel_reservation_occupied w id l rv rm Hid Hl Hc Hr Hs).
        by apply (eff_cancel scale w id l rv rm).
      * rewrite (cancel_reservation_not_occupied w id l rv rm Hid Hl Hc Hr Hs).
        apply (eff_cancel_half scale w id l rv); [done..|]. congruence.
    + replace (after (cancel_reservation id) w) with
        (mkWorld (room_store w) (<[l := set_res_status CANCELLED rv]> (res_store w))
                 (hms w) (payments w))
        by (unfold cancel_reservation, Reservation_cancel, Room_check_out; eval_m).
      apply (eff_cancel_half scale w id l rv); [done..|]. congruence.
  - destruct (check_in_cases w id) as [H|(l & rv & rm & Hid & Hl & Hc & Hr & Hs)];
      [by apply effect_same|].
    unfold after. rewrite (check_in_booked w id l rv rm Hid Hl Hc Hr Hs).
    by apply (eff_check_in scale w id l rv rm).
  - destruct (reservations (hms w) !! id) as [l|] eqn:Hid;
      [|apply effect_same; unfold check_out; eval_m].
    destruct (res_store w !! l) as [rv|] eqn:Hl;
      [|apply effect_same; unfold check_out; eval_m].
    destruct (decide (res_status rv = CONFIRMED)) as [Hc|Hc];
      [|apply effect_same; unfold check_out; eval_m].
    destruct (room_store w !! res_room rv) as [rm|] eqn:Hr;
      [|apply effect_same; unfold check_out; eval_m].
    unfold after. destruct (payment (amount_due scale rm rv)) eqn:Hp.
    + destruct (decide (room_status rm = OCCUPIED)) as [Hs|Hs].
      * rewrite (check_out_paid_occupied scale w id l rv rm payment Hid Hl Hc Hr Hp Hs).
        by apply (eff_check_out scale w id payment l rv rm).
      * rewrite (check_out_paid_not_occupied scale w id l rv rm payment
                   Hid Hl Hc Hr Hp Hs).
        apply (eff_asked scale w id payment l rv rm); auto.
    + rewrite (check_out_declined scale w id l rv rm payment Hid Hl Hc Hr Hp).
      apply (eff_asked scale w id payment l rv rm); auto.
Qed.

(** *** Objects keep their identity *)

Lemma set_room_status_same rm : set_room_status (room_status rm) rm = rm.
Proof. by destruct rm. Qed.

Lemma set_res_status_same rv : set_res_status (res_status rv) rv = rv.
Proof. by destruct rv. Qed.

Lemma exec_room_kept c w r rm :
  room_store w !! r = Some rm →
  ∃ s, room_store (exec scale c w) !! r = Some (set_room_status s rm).
Proof.
  intros Hr.
  assert (Hins : ∀ r0 rm0 s0, room_store w !! r0 = Some rm0 →
            ∃ s, <[r0 := set_room_status s0 rm0]> (room_store w) !! r
                 = Some (set_room_status s rm)).
  { intros r0 rm0 s0 H0. destruct (decide (r0 = r)) as [->|Hd].
    - exists s0. rewrite (lookup_insert_same _ _ _ _ H0). congruence.
    - exists (room_status rm). rewrite list_lookup_insert_ne by done.
      by rewrite set_room_status_same. }
  destruct (exec_effect c w); simpl; eauto;
    try (exists (room_status rm); by rewrite set_room_status_same).
  exists (room_status rm). rewrite set_room_status_same.
  by apply lookup_app_l_Some.
Qed.

(** X1: rooms are never removed, and no call changes the id, the type or the
    price of a room: only its status moves. *)
Theorem rooms_keep_identity cs w r rm :
  room_store w !! r = Some rm →
  ∃ rm', room_store (run scale cs w) !! r = Some rm' ∧
         room_id rm' = room_id rm ∧ room_type rm' = room_type rm ∧
         room_price rm' = room_price rm.
Proof.
  revert w rm. induction cs as [|c cs IH]; intros w rm Hr; simpl.
  - by exists rm.
  - destruct (exec_room_kept c w r rm Hr) as [s Hs].
    destruct (IH _ _ Hs) as (rm' & H & Hid & Hty & Hp). by exists rm'.
Qed.

Lemma exec_res_kept c w l rv :
  res_store w !! l = Some rv →
  ∃ st, res_store (exec scale c w) !! l = Some (set_res_status st rv) ∧
        (res_status rv = CANCELLED → st = CANCELLED).
Proof.
  intros Hl.
  assert (Hins : ∀ l0 rv0, res_store w !! l0 = Some rv0 →
            ∃ st, <[l0 := set_res_status CANCELLED rv0]> (res_store w) !! l
                  = Some (set_res_status st rv) ∧
                  (res_status rv = CANCELLED → st = CANCELLED)).
  { intros l0 rv0 H0. destruct (decide (l0 = l)) as [->|Hd].
    - exists CANCELLED. rewrite (lookup_insert_same _ _ _ _ H0).
      split; [congruence | done].
    - exists (res_status rv). rewrite list_lookup_insert_ne by done.
      by rewrite set_res_status_same. }
  destruct (exec_effect c w); simpl; eauto;
    try (exists (res_status rv); by rewrite set_res_status_same).
  exists (res_status rv). rewrite set_res_status_same.
  split; [by apply lookup_app_l_Some | done].
Qed.

(** X2: reservation objects are never removed from the store and keep their id,
    guest, room and dates; the status of a [CANCELLED] one never changes
    again. *)
Theorem reservations_keep_identity cs w l rv :
  res_store w !! l = Some rv →
  ∃ rv', res_store (run scale cs w) !! l = Some rv' ∧
         res_id rv' = res_id rv ∧ res_guest rv' = res_guest rv ∧
         res_room rv' = res_room rv ∧
         check_in_date rv' = check_in_date rv ∧
         check_out_date rv' = check_out_date rv ∧
         (res_status rv = CANCELLED → res_status rv' = CANCELLED).
Proof.
  revert w rv. induction cs as [|c cs IH]; intros w rv Hl; simpl.
  - by exists rv.
  - destruct (exec_res_kept c w l rv Hl) as (st & Hs & Hst).
    destruct (IH _ _ Hs) as (rv' & H & Hid & Hg & Hr & Hi & Ho & Hc).
    exists rv'. repeat (split; [done|]). intros Hcan. apply Hc. simpl. auto.
Qed.

(** *** Calls leave the other rooms alone *)

(** X3: a call changes no room but the one it is about: the room passed to
    [book_room], or the room of the reservation the identifier names. *)
Theorem other_rooms_untouched c w r :
  target c w ≠ Some r → is_Some (room_store w !! r) →
  room_store (exec scale c w) !! r = room_store w !! r.
Proof.
  intros Ht [rm Hr].
  assert (Hact : ∀ id l rv, reservations (hms w) !! id = Some l →
            res_store w !! l = Some rv → active w id = Some rv)
    by (intros id l rv Hid Hl; unfold active; by rewrite Hid).
  destruct (exec_effect c w); simpl in *; try done.
  - rewrite Hr. by apply lookup_app_l_Some.
  - apply list_lookup_insert_ne. congruence.
  - apply list_lookup_insert_ne. rewrite (Hact id l rv) in Ht by done.
    simpl in Ht. congruence.
  - apply list_lookup_insert_ne. rewrite (Hact id l rv) in Ht by done.
    simpl in Ht. congruence.
  - apply list_lookup_insert_ne. rewrite (Hact id l rv) in Ht by done.
    simpl in Ht. congruence.
Qed.

(** *** Payments *)

Lemma exec_payments c w :
  payments (exec scale c w) = payments w ∨
  is_check_out c = true ∧ ∃ a, payments (exec scale c w) = a :: payments w.
Proof. destruct (exec_effect c w); simpl; eauto. Qed.

(** X4: only [check_out] asks for money, once per call at most, and what was
    asked is never forgotten: the amounts asked during a run are at most as
    many as its [check_out] calls. *)
Theorem payments_only_by_check_out cs w :
  ∃ asked : list Price, payments (run scale cs w) = (asked ++ payments w)%list ∧
           (length asked ≤ length (List.filter is_check_out cs))%nat.
Proof.
  revert w. induction cs as [|c cs IH]; intros w; simpl.
  - by exists [].
  - destruct (IH (exec scale c w)) as (asked & Hp & Hlen).
    destruct (exec_payments c w) as [H|[Hc [a H]]]; rewrite H in Hp.
    + exists asked. split; [done|]. destruct (is_check_out c); simpl; lia.
    + exists (asked ++ [a])%list. rewrite <- app_assoc. split; [done|].
      rewrite Hc, length_app. simpl. lia.
Qed.

(** *** A room without its reservation *)

Lemma confirmed_count_zero w r :
  confirmed_count w r = 0%nat ↔ ∀ id, ¬ confirmed_for w r id.
Proof.
  unfold confirmed_count. split.
  - intros Hz id (rv & Ha & Hc & Hr).
    destruct (active_lookup _ _ _ Ha) as (l & Hid & Hl).
    apply length_zero_iff_nil in Hz.
    apply (filter_nil_not_elem_of _ _ (id, l) Hz).
    + simpl. unfold is_confirmed_for. rewrite Hl. by apply bool_decide_eq_true.
    + by apply elem_of_map_to_list.
  - intros Hno.
    destruct (filter _ (map_to_list (reservations (hms w)))) as [|[id l] xs] eqn:Hf;
      [done|].
    assert (Hin : (id, l) ∈ filter (λ kv, is_confirmed_for w r kv.2 = true)
                               (map_to_list (reservations (hms w))))
      by (rewrite Hf; left).
    apply list_elem_of_filter in Hin as [Hp Hin].
    apply elem_of_map_to_list in Hin.
    destruct (Hno id). by apply (is_confirmed_for_true w r id l).
Qed.

Lemma exec_stranded c w r s :
  status_of w r = Some s → s ≠ AVAILABLE → (∀ id, ¬ confirmed_for w r id) →
  status_of (exec scale c w) r = Some s ∧
  ∀ id, ¬ confirmed_for (exec scale c w) r id.
Proof.
  intros Hst Hs Hno.
  destruct (status_of_lookup _ _ _ Hst) as (rm & Hr & Hrs).
  assert (Hother : ∀ id l rv, reservations (hms w) !! id = Some l →
            res_store w !! l = Some rv → res_status rv = CONFIRMED →
            res_room rv ≠ r).
  { intros id l rv Hid Hl Hc Heq. apply (Hno id). exists rv.
    unfold active. by rewrite Hid. }
  (* a world whose indexed confirmed reservations were all indexed in [w] *)
  assert (Hsub : ∀ w', (∀ id rv, active w' id = Some rv →
                          res_status rv = CONFIRMED → active w id = Some rv) →
                       ∀ id, ¬ confirmed_for w' r id).
  { intros w' Hin id (rv & Ha & Hc & Hr'). apply (Hno id). exists rv. auto. }
  assert (Hdel : ∀ id0 id rv, 
            match delete id0 (reservations (hms w)) !! id with
            | Some l => res_store w !! l
            | None => None
            end = Some rv → active w id = Some rv).
  { intros id0 id rv Ha. unfold active.
    destruct (decide (id0 = id)) as [->|Hd].
    - by rewrite lookup_delete_eq in Ha.
    - by rewrite lookup_delete_ne in Ha. }
  assert (Hcan : ∀ l0 rv0 l rv, res_store w !! l0 = Some rv0 →
            <[l0 := set_res_status CANCELLED rv0]> (res_store w) !! l = Some rv →
            res_status rv = CONFIRMED → res_store w !! l = Some rv).
  { intros l0 rv0 l rv Hl0 Hl Hc. destruct (decide (l0 = l)) as [<-|Hd].
    - rewrite (lookup_insert_same _ _ _ _ Hl0) in Hl. injection Hl as <-.
      discriminate.
    - by rewrite list_lookup_insert_ne in Hl. }
  destruct (exec_effect c w)
    as [c|id0 ty price|g|r0 rm0 Hr0|guest r0 cin cout uuid rm0 Hr0 Hs0
       |id0 l0 rv0 Hid Hl Hc Hn|id0 l0 rv0 rm0 Hid Hl Hc Hr0 Hs0
       |id0 l0 rv0 rm0 Hid Hl Hc Hr0 Hs0|id0 payment l0 rv0 rm0 Hid Hl Hc Hr0 Hp
       |id0 payment l0 rv0 rm0 Hid Hl Hc Hr0 Hp Hs0]; simpl; try done.
  - split; [|done]. unfold status_of in *. simpl.
    by rewrite (lookup_app_l_Some _ _ _ _ Hr), <- Hst, Hr.
  - assert (r0 ≠ r) by (intros ->; congruence). split.
    + by rewrite status_of_insert_ne.
    + intros id (rv' & Ha & Hc & Hr'). unfold active in Ha. simpl in Ha.
      destruct (decide (_generate_reservation_id uuid = id)) as [<-|Hd].
      * rewrite lookup_insert_eq in Ha. rewrite lookup_app_r in Ha by lia.
        rewrite Nat.sub_diag in Ha. injection Ha as <-. done.
      * rewrite lookup_insert_ne in Ha by done.
        destruct (reservations (hms w) !! id) as [l|] eqn:Hid; [|done].
        apply lookup_app_Some in Ha as [Ha|[_ Ha]].
        -- by apply (Hother id l rv').
        -- apply list_elem_of_lookup_2, list_elem_of_singleton in Ha.
           subst rv'. done.
  - split; [done|]. apply Hsub. intros id rv Ha Hc'. unfold active in *.
    simpl in Ha. destruct (reservations (hms w) !! id) as [l|]; [|done].
    by apply (Hcan l0 rv0).
  - assert (res_room rv0 ≠ r) by eauto. split.
    + by rewrite status_of_insert_ne.
    + apply Hsub. intros id rv Ha Hc'. apply (Hdel id0). unfold active in Ha.
      simpl in Ha.
      destruct (delete id0 (reservations (hms w)) !! id) as [l|]; [|done].
      by apply (Hcan l0 rv0).
  - assert (res_room rv0 ≠ r) by eauto. split; [|done].
    by rewrite status_of_insert_ne.
  - assert (res_room rv0 ≠ r) by eauto. split.
    + by rewrite status_of_insert_ne.
    + apply Hsub. intros id rv Ha Hc'. by apply (Hdel id0).
Qed.

(** X5: a room that is not [AVAILABLE] while no indexed [CONFIRMED] reservation
    references it stays so for ever: after any calls its status is the
    same, still no indexed [CONFIRMED] reservation references it, and
    [book_room] on it answers [None] and changes nothing. *)
Theorem stranded_room_stays cs w r s :
  status_of w r = Some s → s ≠ AVAILABLE → confirmed_count w r = 0%nat →
  status_of (run scale cs w) r = Some s ∧
  confirmed_count (run scale cs w) r = 0%nat ∧
  ∀ guest cin cout uuid,
    book_room guest r cin cout uuid (run scale cs w)
      = (Returned None, run scale cs w).
Proof.
  rewrite confirmed_count_zero.
  revert w. induction cs as [|c cs IH]; intros w Hst Hs Hno; simpl.
  - split; [done|]. split; [by apply confirmed_count_zero|].
    intros guest cin cout uuid.
    destruct (status_of_lookup _ _ _ Hst) as (rm & Hr & Hrs).
    apply (book_room_unavailable w guest r rm); congruence.
  - destruct (exec_stranded c w r s Hst Hs Hno) as [Hst' Hno'].
    by apply IH.
Qed.

(** *** Guards of the single operations *)

(** X6: [check_in] works once: on a [CONFIRMED] reservation with a [BOOKED] room
    it returns and the room is [OCCUPIED]; repeated, it raises "Room is not
    booked." and changes nothing. *)
Theorem check_in_twice w id rv :
  active w id = Some rv → res_status rv = CONFIRMED →
  status_of w (res_room rv) = Some BOOKED →
  let w' := after (check_in id) w in
  result (check_in id) w = Returned tt ∧
  status_of w' (res_room rv) = Some OCCUPIED ∧
  check_in id w' = (Raised (ValueError "Room is not booked."), w').
Proof.
  intros Ha Hc Hst w'. subst w'.
  destruct (active_lookup _ _ _ Ha) as (l & Hid & Hl).
  destruct (status_of_lookup _ _ _ Hst) as (rm & Hr & Hb).
  unfold result, after. rewrite (check_in_booked w id l rv rm Hid Hl Hc Hr Hb).
  simpl. split; [done|]. split; [by rewrite (status_of_insert w _ rm)|].
  pose proof (lookup_insert_same _ _ _ (set_room_status OCCUPIED rm) Hr) as Hr'.
  unfold check_in, Room_check_in. eval_m.
Qed.

(** X7: a room that was booked is refused to every further [book_room], whoever
    asks and for whatever dates: the call answers [None] and changes
    nothing. *)
Theorem second_booking_refused w guest r rm cin cout uuid guest' cin' cout' uuid' :
  room_store w !! r = Some rm → room_status rm = AVAILABLE →
  let w' := after (book_room guest r cin cout uuid) w in
  result (book_room guest r cin cout uuid) w
    = Returned (Some (length (res_store w))) ∧
  book_room guest' r cin' cout' uuid' w' = (Returned None, w').
Proof.
  intros Hr Hs w'. subst w'. unfold result, after.
  rewrite (book_room_available w guest r rm cin cout uuid Hr Hs). simpl.
  split; [done|].
  apply (book_room_unavailable _ guest' r (set_room_status BOOKED rm));
    [|done].
  simpl. by apply (lookup_insert_same _ _ rm).
Qed.

(** X8: an identifier that is not indexed, or that names a [CANCELLED]
    reservation, is refused by [check_in] and by [check_out] with the same
    error; nothing changes and the payment capability is not called. *)
Theorem unconfirmed_is_refused w id payment :
  reservations (hms w) !! id = None ∨
    (∃ rv, active w id = Some rv ∧ res_status rv = CANCELLED) →
  check_in id w = (Raised invalid_reservation, w) ∧
  check_out scale id payment w = (Raised invalid_reservation, w).
Proof.
  intros [Hid|(rv & Ha & Hc)].
  - split; [by apply check_in_unknown | by apply check_out_unknown].
  - destruct (active_lookup _ _ _ Ha) as (l & Hid & Hl).
    split; [unfold check_in | unfold check_out]; eval_m.
Qed.

(** X9: a [CANCELLED] reservation that is still indexed cannot be cancelled
    again: the call raises "Reservation is not confirmed." and changes
    nothing, so the entry stays in the index. *)
Theorem cancelled_stays_indexed w id rv :
  active w id = Some rv → res_status rv = CANCELLED →
  cancel_reservation id w
    = (Raised (ValueError "Reservation is not confirmed."), w).
Proof.
  intros Ha Hc. destruct (active_lookup _ _ _ Ha) as (l & Hid & Hl).
  unfold cancel_reservation, Reservation_cancel. eval_m.
Qed.

(** *** A whole stay *)

(** X10: [book_room], [check_in] and a paid [check_out] all return, and bring the
    rooms back exactly as they were; the reservation object stays in the
    store but not in the index, and the capability was asked once, for
    price times nights. *)
Theorem full_stay_round_trip w guest r rm cin cout uuid payment :
  room_store w !! r = Some rm → room_status rm = AVAILABLE →
  payment (scale (room_price rm) (cout - cin)) = true →
  let id := _generate_reservation_id uuid in
  let w1 := after (book_room guest r cin cout uuid) w in
  let w2 := after (check_in id) w1 in
  let w3 := after (check_out scale id payment) w2 in
  result (check_in id) w1 = Returned tt ∧
  result (check_out scale id payment) w2 = Returned tt ∧
  room_store w3 = room_store w ∧
  res_store w3
    = (res_store w ++ [mkReservation id guest r cin cout CONFIRMED])%list ∧
  reservations (hms w3) = delete id (reservations (hms w)) ∧
  payments w3 = scale (room_price rm) (cout - cin) :: payments w.
Proof.
  intros Hr Hs Hp id w1 w2 w3.
  set (made := mkReservation id guest r cin cout CONFIRMED).
  pose proof (book_room_available w guest r rm cin cout uuid Hr Hs) as Hbook.
  fold id in Hbook. fold made in Hbook.
  assert (Hw1 : w1 = mkWorld (<[r := set_room_status BOOKED rm]> (room_store w))
                   (res_store w ++ [made])
                   (set_reservations
                      (<[id := length (res_store w)]> (reservations (hms w))) (hms w))
                   (payments w))
    by (subst w1; unfold after; by rewrite Hbook).
  assert (Hid : reservations (hms w1) !! id = Some (length (res_store w)))
    by (rewrite Hw1; simpl; apply lookup_insert_eq).
  assert (Hl : res_store w1 !! length (res_store w) = Some made)
    by (rewrite Hw1; simpl; rewrite lookup_app_r by lia; by rewrite Nat.sub_diag).
  assert (Hr1 : room_store w1 !! r = Some (set_room_status BOOKED rm))
    by (rewrite Hw1; simpl; by apply (lookup_insert_same _ _ rm)).
  pose proof (check_in_booked w1 id _ made _ Hid Hl eq_refl Hr1 eq_refl) as Hin.
  assert (Hw2 : w2 = mkWorld
                   (<[r := set_room_status OCCUPIED (set_room_status BOOKED rm)]>
                      (room_store w1))
                   (res_store w1) (hms w1) (payments w1))
    by (subst w2; unfold after; by rewrite Hin).
  assert (Hid2 : reservations (hms w2) !! id = Some (length (res_store w)))
    by (by rewrite Hw2).
  assert (Hl2 : res_store w2 !! length (res_store w) = Some made)
    by (by rewrite Hw2).
  assert (Hr2 : room_store w2 !! r
                = Some (set_room_status OCCUPIED (set_room_status BOOKED rm)))
    by (rewrite Hw2; simpl; by apply (lookup_insert_same _ _ _ _ Hr1)).
  pose proof (check_out_paid_occupied scale w2 id _ made _ payment
                Hid2 Hl2 eq_refl Hr2 Hp eq_refl) as Hout.
  assert (Hw3 : w3 = mkWorld
                   (<[r := set_room_status AVAILABLE
                             (set_room_status OCCUPIED (set_room_status BOOKED rm))]>
                      (room_store w2))
                   (res_store w2)
                   (set_reservations (delete id (reservations (hms w2))) (hms w2))
                   (scale (room_price rm) (cout - cin) :: payments w2))
    by (subst w3; unfold after; by rewrite Hout).
  clearbody w1 w2 w3.
  split; [unfold result; by rewrite Hin|].
  split; [unfold result; by rewrite Hout|].
  rewrite Hw3, Hw2, Hw1. simpl. repeat split.
  - rewrite !list_insert_insert_eq. apply list_insert_id.
    rewrite Hr. f_equal. destruct rm. simpl in *. by subst.
  - apply delete_insert_eq.
Qed.

(** *** The registries *)

Lemma exec_guest_kept c w g :
  (∀ g', c = AddGuest g' → guest_id g' ≠ guest_id g) →
  guests (hms w) !! guest_id g = Some g →
  guests (hms (exec scale c w)) !! guest_id g = Some g.
Proof.
  intros Hc Hg. destruct (exec_effect c w) as [| |g'| | | | | | |]; simpl; try done.
  rewrite lookup_insert_ne; [done|]. by apply Hc.
Qed.

(** X11: a guest that was added is found by [get_guest] under their id after
    any later calls, as long as none of them adds a guest with that id. *)
Theorem added_guest_is_found cs w g :
  Forall (λ c, ∀ g', c = AddGuest g' → guest_id g' ≠ guest_id g) cs →
  result (get_guest (guest_id g)) (run scale cs (after (add_guest g) w))
    = Returned (Some g).
Proof.
  intros Hcs.
  assert (H : ∀ w', guests (hms w') !! guest_id g = Some g →
            guests (hms (run scale cs w')) !! guest_id g = Some g).
  { induction Hcs as [|c cs Hc Hcs IH]; intros w' Hg; [done|].
    simpl. apply IH. by apply exec_guest_kept. }
  unfold result, get_guest. unfold_m. simpl. f_equal. apply H.
  simpl. apply lookup_insert_eq.
Qed.

(** X12: adding a guest under an id that is taken replaces the earlier guest. *)
Theorem add_guest_replaces w g g' :
  guest_id g' = guest_id g →
  result (get_guest (guest_id g)) (after (add_guest g') (after (add_guest g) w))
    = Returned (Some g').
Proof.
  intros Heq. unfold result, get_guest, add_guest. unfold_m. simpl.
  rewrite Heq. by rewrite lookup_insert_eq.
Qed.

(** X13: [add_room] files a room under the id the room object carries, and
    [get_room] finds it there; a second room with the same id takes the
    place of the first in the catalog. *)
Theorem add_room_then_get_room w r rm r' rm' :
  room_store w !! r = Some rm → room_store w !! r' = Some rm' →
  room_id rm' = room_id rm →
  result (get_room (room_id rm)) (after (add_room r) w) = Returned (Some r) ∧
  result (get_room (room_id rm)) (after (add_room r') (after (add_room r) w))
    = Returned (Some r').
Proof.
  intros Hr Hr' Heq. unfold result, get_room, add_room. unfold_m.
  rewrite Hr. simpl. rewrite Hr'. simpl.
  rewrite Heq. by rewrite !lookup_insert_eq.
Qed.

(** *** What holds of every world a run reaches *)

(** X14: in every world reached from the initial one, the room of an indexed
    [CONFIRMED] reservation is [BOOKED] or [OCCUPIED], never [AVAILABLE]. *)
Theorem confirmed_reservation_keeps_room cs id rv :
  active (run scale cs initial) id = Some rv → res_status rv = CONFIRMED →
  status_of (run scale cs initial) (res_room rv) = Some BOOKED ∨
  status_of (run scale cs initial) (res_room rv) = Some OCCUPIED.
Proof.
  intros Ha Hc.
  destruct (consistent_run scale cs initial consistent_initial) as (_ & Hh & _).
  destruct (Hh id rv Ha Hc) as (s & Hs & Hne). rewrite Hs.
  destruct s; [done | by left | by right].
Qed.

Lemma exec_keyed c w : closed w → keyed w → keyed (exec scale c w).
Proof.
  intros Hcl Hk.
  assert (Hcan : ∀ l0 rv0 rms h ps id rv,
            reservations h !! id = reservations (hms w) !! id ∨
              reservations h !! id = None →
            active (mkWorld rms (<[l0 := set_res_status CANCELLED rv0]> (res_store w))
                      h ps) id = Some rv →
            res_store w !! l0 = Some rv0 → res_id rv = id).
  { intros l0 rv0 rms h ps id rv Hh Ha Hl0. unfold active in Ha. simpl in Ha.
    destruct Hh as [Hh|Hh]; rewrite Hh in Ha; [|done].
    destruct (reservations (hms w) !! id) as [l|] eqn:Hid; [|done].
    destruct (decide (l0 = l)) as [<-|Hd].
    - rewrite (lookup_insert_same _ _ _ _ Hl0) in Ha. injection Ha as <-.
      simpl. apply Hk. unfold active. by rewrite Hid.
    - rewrite list_lookup_insert_ne in Ha by done. apply Hk. unfold active.
      by rewrite Hid. }
  assert (Hdel : ∀ id0 id, delete id0 (reservations (hms w)) !! id
                             = reservations (hms w) !! id ∨
                           delete id0 (reservations (hms w)) !! id = None).
  { intros id0 id. destruct (decide (id0 = id)) as [->|Hd].
    - right. apply lookup_delete_eq.
    - left. by apply lookup_delete_ne. }
  destruct (exec_effect c w)
    as [c|id0 ty price|g|r0 rm0 Hr0|guest r0 cin cout uuid rm0 Hr0 Hs0
       |id0 l0 rv0 Hid Hl Hc Hn|id0 l0 rv0 rm0 Hid Hl Hc Hr0 Hs0
       |id0 l0 rv0 rm0 Hid Hl Hc Hr0 Hs0|id0 payment l0 rv0 rm0 Hid Hl Hc Hr0 Hp
       |id0 payment l0 rv0 rm0 Hid Hl Hc Hr0 Hp Hs0]; try done.
  - intros id rv Ha. unfold active in Ha. simpl in Ha.
    destruct (decide (_generate_reservation_id uuid = id)) as [<-|Hd].
    + rewrite lookup_insert_eq in Ha. rewrite lookup_app_r in Ha by lia.
      rewrite Nat.sub_diag in Ha. by injection Ha as <-.
    + rewrite lookup_insert_ne in Ha by done.
      destruct (reservations (hms w) !! id) as [l|] eqn:Hid; [|done].
      rewrite lookup_app_l in Ha by (by apply (Hcl id)).
      apply Hk. unfold active. by rewrite Hid.
  - intros id rv Ha. apply (Hcan _ _ _ _ _ _ _ (or_introl eq_refl) Ha Hl).
  - intros id rv Ha.
    apply (Hcan l0 rv0 _
             (set_reservations (delete id0 (reservations (hms w))) (hms w))
             _ id rv (Hdel id0 id) Ha Hl).
  - intros id rv Ha. apply Hk. unfold active in *. simpl in Ha.
    destruct (Hdel id0 id) as [H|H]; rewrite H in Ha; done.
Qed.

(** X15: in every world reached from the initial one, each entry of the index
    names a reservation object of the store, and that object carries the
    key as its id. *)
Theorem index_entries_are_reservations cs id l :
  reservations (hms (run scale cs initial)) !! id = Some l →
  ∃ rv, res_store (run scale cs initial) !! l = Some rv ∧ res_id rv = id.
Proof.
  assert (H : ∀ w, consistent w → keyed w →
            consistent (run scale cs w) ∧ keyed (run scale cs w)).
  { induction cs as [|c cs IH]; intros w Hc Hk; [done|]. simpl.
    apply IH; [by apply consistent_exec|].
    apply exec_keyed; [by destruct Hc | done]. }
  destruct (H initial consistent_initial) as ((Hcl & _) & Hk); [done|].
  intros Hid. pose proof (Hcl id l Hid) as Hlt.
  apply lookup_lt_is_Some in Hlt as [rv Hl]. exists rv. split; [done|].
  apply Hk. unfold active. by rewrite Hid.
Qed.

(** *** Colliding identifiers *)

(** X16: two bookings whose identifiers coincide: both succeed, the second
    replaces the first in the index, and the first room is left [BOOKED]
    with no indexed [CONFIRMED] reservation. *)
Theorem colliding_booking_strands_room
    cs guest guest' r r' rm rm' cin cout cin' cout' uuid uuid' :
  let w := run scale cs initial in
  room_store w !! r = Some rm → room_status rm = AVAILABLE →
  room_store w !! r' = Some rm' → room_status rm' = AVAILABLE →
  r ≠ r' →
  _generate_reservation_id uuid' = _generate_reservation_id uuid →
  let id := _generate_reservation_id uuid in
  let w1 := after (book_room guest r cin cout uuid) w in
  let w2 := after (book_room guest' r' cin' cout' uuid') w1 in
  (∃ l, result (book_room guest r cin cout uuid) w = Returned (Some l)) ∧
  (∃ l, result (book_room guest' r' cin' cout' uuid') w1 = Returned (Some l)) ∧
  active w2 id = Some (mkReservation id guest' r' cin' cout' CONFIRMED) ∧
  status_of w2 r = Some BOOKED ∧
  confirmed_count w2 r = 0%nat.
Proof.
  intros w Hr Hs Hr' Hs' Hne Hcol id w1 w2.
  destruct (consistent_run scale cs initial consistent_initial) as (Hcl & Hh & _).
  fold w in Hcl, Hh.
  set (made := mkReservation id guest r cin cout CONFIRMED).
  set (made' := mkReservation id guest' r' cin' cout' CONFIRMED).
  pose proof (book_room_available w guest r rm cin cout uuid Hr Hs) as Hb1.
  fold id in Hb1. fold made in Hb1.
  assert (Hw1 : w1 = mkWorld (<[r := set_room_status BOOKED rm]> (room_store w))
                   (res_store w ++ [made])
                   (set_reservations
                      (<[id := length (res_store w)]> (reservations (hms w))) (hms w))
                   (payments w))
    by (subst w1; unfold after; by rewrite Hb1).
  assert (Hr1 : room_store w1 !! r' = Some rm')
    by (rewrite Hw1; simpl; by rewrite list_lookup_insert_ne).
  pose proof (book_room_available w1 guest' r' rm' cin' cout' uuid' Hr1 Hs') as Hb2.
  rewrite Hcol in Hb2. fold id in Hb2. fold made' in Hb2.
  assert (Hw2 : w2 = mkWorld (<[r' := set_room_status BOOKED rm']> (room_store w1))
                   (res_store w1 ++ [made'])
                   (set_reservations
                      (<[id := length (res_store w1)]> (reservations (hms w1)))
                      (hms w1))
                   (payments w1))
    by (subst w2; unfold after; by rewrite Hb2).
  clearbody w1 w2.
  split; [unfold result; rewrite Hb1; eauto|].
  split; [unfold result; rewrite Hb2; eauto|].
  assert (Hnew : active w2 id = Some made').
  { rewrite Hw2. unfold active. simpl. rewrite lookup_insert_eq.
    rewrite lookup_app_r by lia. by rewrite Nat.sub_diag. }
  split; [done|]. split.
  - rewrite Hw2. rewrite status_of_insert_ne by done. rewrite Hw1.
    by rewrite (status_of_insert w r rm).
  - apply confirmed_count_zero. intros id' (rv & Ha & Hc & Hroom).
    destruct (decide (id' = id)) as [->|Hd].
    + rewrite Hnew in Ha. injection Ha as <-. simpl in Hroom. congruence.
    + assert (Hold : active w id' = Some rv).
      { rewrite Hw2, Hw1 in Ha. unfold active in *. simpl in Ha.
        rewrite !lookup_insert_ne in Ha by done.
        destruct (reservations (hms w) !! id') as [l|] eqn:Hid; [|done].
        pose proof (Hcl id' l Hid) as Hlt.
        rewrite lookup_app_l in Ha by (rewrite length_app; lia).
        by rewrite lookup_app_l in Ha by done. }
      destruct (Hh id' rv Hold Hc) as (s & Hst & Hav).
      rewrite Hroom in Hst. unfold status_of in Hst. rewrite Hr in Hst.
      simpl in Hst. congruence.
Qed.

(** *** Concurrent callers: the lock *)

(** X17: under every schedule of callers of [book_room] on one [AVAILABLE] room,
    at most one caller is inside the [with self.lock] block at a time, the
    lock is held whenever one is, and no call ever raises: the room's own
    ["Room is not available for booking."] is never met. *)
Theorem one_caller_inside_at_a_time w r rm qs s :
  room_store w !! r = Some rm → room_status rm = AVAILABLE →
  Forall (λ q, req_room q = r) qs →
  let c := run_schedule s (spawn w qs) in
  (∀ i j p p', pc_at c i = Some p → pc_at c j = Some p' →
               inside p = true → inside p' = true → i = j) ∧
  (∀ i p, pc_at c i = Some p → inside p = true → hms_lock c = true) ∧
  (∀ i e, pc_at c i ≠ Some (Done (Raised e))).
Proof.
  intros Hr Hs Hqs c.
  destruct (safe_run r s _ (safe_spawn w r rm qs Hr Hs Hqs))
    as [_ _ Hmx Hlk _ _ _ _ Hnr _].
  by repeat split.
Qed.

End Further.

(** * Reservation identifiers *)

Lemma hex_digit_code n :
  (n < 16)%N →
  N_of_ascii (hex_digit n) = if (n <? 10)%N then (48 + n)%N else (55 + n)%N.
Proof.
  intros Hn. unfold hex_digit. apply N_ascii_embedding.
  destruct (n <? 10)%N; lia.
Qed.

Lemma hex_digit_upper n : (n < 16)%N → is_upper_hex (hex_digit n) = true.
Proof.
  intros Hn. unfold is_upper_hex. rewrite (hex_digit_code n Hn). simpl.
  destruct (n <? 10)%N eqn:E.
  - apply N.ltb_lt in E. apply orb_true_iff. left.
    apply andb_true_iff. split; apply N.leb_le; lia.
  - apply N.ltb_ge in E. apply orb_true_iff. right.
    apply andb_true_iff. split; apply N.leb_le; lia.
Qed.

Lemma hex_digit_inj n m :
  (n < 16)%N → (m < 16)%N → hex_digit n = hex_digit m → n = m.
Proof.
  intros Hn Hm H. apply (f_equal N_of_ascii) in H.
  rewrite (hex_digit_code n Hn), (hex_digit_code m Hm) in H.
  destruct (n <? 10)%N eqn:En; destruct (m <? 10)%N eqn:Em;
    try apply N.ltb_lt in En; try apply N.ltb_lt in Em;
    try apply N.ltb_ge in En; try apply N.ltb_ge in Em; lia.
Qed.

Lemma hex_digits_length k n acc :
  String.length (hex_digits k n acc) = (k + String.length acc)%nat.
Proof.
  revert n acc. induction k as [|k IH]; intros n acc; simpl; [done|].
  rewrite IH. simpl. lia.
Qed.

Lemma hex_digits_upper k n acc :
  forallb is_upper_hex (list_ascii_of_string acc) = true →
  forallb is_upper_hex (list_ascii_of_string (hex_digits k n acc)) = true.
Proof.
  revert n acc. induction k as [|k IH]; intros n acc Hacc; simpl; [done|].
  apply IH. simpl. rewrite Hacc, hex_digit_upper; [done|].
  apply N.mod_lt. lia.
Qed.

Lemma hex_digits_inj k n m acc acc' :
  hex_digits k n acc = hex_digits k m acc' →
  (n mod 16 ^ N.of_nat k = m mod 16 ^ N.of_nat k)%N ∧ acc = acc'.
Proof.
  revert n m acc acc'. induction k as [|k IH]; intros n m acc acc' H.
  - simpl in *. by rewrite !N.mod_1_r.
  - simpl in H. apply IH in H as [Hhi Hacc].
    injection Hacc as Hd ->. split; [|done].
    apply hex_digit_inj in Hd; [|apply N.mod_lt; lia..].
    rewrite Nat2N.inj_succ, N.pow_succ_r'.
    rewrite !N.Div0.mod_mul_r. by rewrite Hd, Hhi.
Qed.

Lemma top32_bound uuid : (top32 uuid < 16 ^ 8)%N.
Proof. unfold top32. change (16 ^ 8)%N with (2 ^ 32)%N. apply N.mod_lt. lia. Qed.

(** X18: every reservation identifier is "RES" followed by eight characters out
    of 0-9 and A-F: eleven characters in all. *)
Theorem reservation_id_shape uuid :
  ∃ d, _generate_reservation_id uuid = "RES" ++ d ∧
       String.length d = 8%nat ∧
       forallb is_upper_hex (list_ascii_of_string d) = true ∧
       String.length (_generate_reservation_id uuid) = 11%nat.
Proof.
  exists (hex_digits 8 (top32 uuid) ""). split; [done|].
  split; [by rewrite hex_digits_length|].
  split; [by apply hex_digits_upper|].
  unfold _generate_reservation_id. fold (top32 uuid).
  generalize (top32 uuid). intros n. reflexivity.
Qed.

(** X19: two draws give the same identifier exactly when the top 32 of their 128
    bits agree: the other 96 bits do not reach the identifier. *)
Theorem reservation_id_eq_iff uuid uuid' :
  _generate_reservation_id uuid = _generate_reservation_id uuid'
  ↔ top32 uuid = top32 uuid'.
Proof.
  split.
  - unfold _generate_reservation_id. fold (top32 uuid). fold (top32 uuid').
    assert (Hcut : ∀ x y : string, "RES" ++ x = "RES" ++ y → x = y)
      by (intros x y Hxy; cbn in Hxy; by injection Hxy).
    intros H. apply Hcut in H.
    apply hex_digits_inj in H as [H _]. simpl N.of_nat in H.
    by rewrite !N.mod_small in H by apply top32_bound.
  - intros H. unfold _generate_reservation_id. fold (top32 uuid).
    fold (top32 uuid'). by rewrite H.
Qed.

(** * Scenarios for the further properties *)

Lemma rooms_keep_identity_witness :
  room_store one_room !! 0%nat = Some (room1 AVAILABLE) ∧
  ∃ rm', room_store (run Z.mul [BookRoom guest1 0 0%Z 2%Z 0%N;
                                CheckIn "RES00000000"] one_room) !! 0%nat
           = Some rm' ∧
         room_id rm' = "R1" ∧ room_type rm' = SINGLE ∧ room_price rm' = 100%Z.
Proof.
  split; [reflexivity|].
  exact (rooms_keep_identity Z.mul
           [BookRoom guest1 0 0%Z 2%Z 0%N; CheckIn "RES00000000"]
           one_room 0 (room1 AVAILABLE) eq_refl).
Defined.

Lemma reservations_keep_identity_witness :
  res_store booked !! 0%nat = Some res1 ∧
  ∃ rv', res_store (run Z.mul [CancelReservation "RES00000000";
                               CheckIn "RES00000000"] booked) !! 0%nat
           = Some rv' ∧
         res_id rv' = "RES00000000" ∧ res_room rv' = 0%nat.
Proof.
  split; [reflexivity|].
  destruct (reservations_keep_identity Z.mul
              [CancelReservation "RES00000000"; CheckIn "RES00000000"]
              booked 0 res1 eq_refl) as (rv' & H & Hid & _ & Hr & _).
  exists rv'. split; [exact H|]. split; [exact Hid | exact Hr].
Defined.

Lemma other_rooms_untouched_witness :
  target (BookRoom guest1 0 0%Z 2%Z 0%N) two_rooms ≠ Some 1%nat ∧
  is_Some (room_store two_rooms !! 1%nat) ∧
  room_store (exec Z.mul (BookRoom guest1 0 0%Z 2%Z 0%N) two_rooms) !! 1%nat
    = room_store two_rooms !! 1%nat.
Proof.
  assert (H1 : target (BookRoom guest1 0 0%Z 2%Z 0%N) two_rooms ≠ Some 1%nat)
    by discriminate.
  assert (H2 : is_Some (room_store two_rooms !! 1%nat))
    by (eexists; reflexivity).
  split; [exact H1|]. split; [exact H2|].
  exact (other_rooms_untouched Z.mul _ two_rooms 1 H1 H2).
Defined.

Lemma stranded_room_stays_witness :
  status_of left_behind 0 = Some BOOKED ∧ BOOKED ≠ AVAILABLE ∧
  confirmed_count left_behind 0 = 0%nat ∧
  let w := run Z.mul [BookRoom guest2 0 3%Z 4%Z (2 ^ 96)%N;
                      CheckIn "RES00000000";
                      CheckOut "RES00000000" CashPayment;
                      CancelReservation "RES00000000"] left_behind in
  status_of w 0 = Some BOOKED ∧ confirmed_count w 0 = 0%nat.
Proof.
  assert (Hne : BOOKED ≠ AVAILABLE) by discriminate.
  split; [reflexivity|]. split; [exact Hne|]. split; [reflexivity|].
  destruct (stranded_room_stays Z.mul
              [BookRoom guest2 0 3%Z 4%Z (2 ^ 96)%N; CheckIn "RES00000000";
               CheckOut "RES00000000" CashPayment;
               CancelReservation "RES00000000"]
              left_behind 0 BOOKED eq_refl Hne eq_refl) as (H1 & H2 & _).
  split; [exact H1 | exact H2].
Defined.

Lemma check_in_twice_witness :
  active booked "RES00000000" = Some res1 ∧ res_status res1 = CONFIRMED ∧
  status_of booked (res_room res1) = Some BOOKED ∧
  check_in "RES00000000" (after (check_in "RES00000000") booked)
    = (Raised (ValueError "Room is not booked."),
       after (check_in "RES00000000") booked).
Proof.
  do 3 (split; [reflexivity|]).
  destruct (check_in_twice booked "RES00000000" res1 eq_refl eq_refl eq_refl)
    as (_ & _ & H).
  exact H.
Defined.

Lemma second_booking_refused_witness :
  room_store one_room !! 0%nat = Some (room1 AVAILABLE) ∧
  room_status (room1 AVAILABLE) = AVAILABLE ∧
  book_room guest2 0 1%Z 3%Z (2 ^ 96)%N
            (after (book_room guest1 0 0%Z 2%Z 0%N) one_room)
    = (Returned None, after (book_room guest1 0 0%Z 2%Z 0%N) one_room).
Proof.
  do 2 (split; [reflexivity|]).
  destruct (second_booking_refused one_room guest1 0 (room1 AVAILABLE) 0%Z 2%Z 0%N
              guest2 1%Z 3%Z (2 ^ 96)%N eq_refl eq_refl) as (_ & H).
  exact H.
Defined.

Lemma unconfirmed_is_refused_witness :
  (reservations (hms booked) !! "RES0000BEEF" = None ∨
   ∃ rv, active booked "RES0000BEEF" = Some rv ∧ res_status rv = CANCELLED) ∧
  check_in "RES0000BEEF" booked = (Raised invalid_reservation, booked) ∧
  check_out Z.mul "RES0000BEEF" CashPayment booked
    = (Raised invalid_reservation, booked).
Proof.
  assert (H : reservations (hms booked) !! "RES0000BEEF" = None ∨
              ∃ rv, active booked "RES0000BEEF" = Some rv ∧
                    res_status rv = CANCELLED)
    by (left; reflexivity).
  split; [exact H|].
  exact (unconfirmed_is_refused Z.mul booked "RES0000BEEF" CashPayment H).
Defined.

Lemma cancelled_stays_indexed_witness :
  active left_behind "RES00000000" = Some (set_res_status CANCELLED res1) ∧
  res_status (set_res_status CANCELLED res1) = CANCELLED ∧
  cancel_reservation "RES00000000" left_behind
    = (Raised (ValueError "Reservation is not confirmed."), left_behind).
Proof.
  do 2 (split; [reflexivity|]).
  exact (cancelled_stays_indexed left_behind "RES00000000"
           (set_res_status CANCELLED res1) eq_refl eq_refl).
Defined.

Lemma full_stay_round_trip_witness :
  room_store one_room !! 0%nat = Some (room1 AVAILABLE) ∧
  room_status (room1 AVAILABLE) = AVAILABLE ∧
  CashPayment (100 * (2 - 0))%Z = true ∧
  let w3 := after (check_out Z.mul "RES00000000" CashPayment)
              (after (check_in "RES00000000")
                 (after (book_room guest1 0 0%Z 2%Z 0%N) one_room)) in
  room_store w3 = room_store one_room ∧ payments w3 = [200%Z].
Proof.
  do 3 (split; [reflexivity|]).
  destruct (full_stay_round_trip Z.mul one_room guest1 0 (room1 AVAILABLE)
              0%Z 2%Z 0%N CashPayment eq_refl eq_refl eq_refl)
    as (_ & _ & Hrooms & _ & _ & Hpay).
  split; [exact Hrooms | exact Hpay].
Defined.

Lemma added_guest_is_found_witness :
  Forall (λ c : call Z, ∀ g', c = AddGuest g' → guest_id g' ≠ guest_id guest1)
         [NewRoom "R1" SINGLE 100%Z; AddGuest guest2;
          BookRoom guest1 0 0%Z 2%Z 0%N] ∧
  result (get_guest "g1")
         (run Z.mul [NewRoom "R1" SINGLE 100%Z; AddGuest guest2;
                     BookRoom guest1 0 0%Z 2%Z 0%N]
              (after (add_guest guest1) initial))
    = Returned (Some guest1).
Proof.
  assert (H : Forall (λ c : call Z,
                ∀ g', c = AddGuest g' → guest_id g' ≠ guest_id guest1)
              [NewRoom "R1" SINGLE 100%Z; AddGuest guest2;
               BookRoom guest1 0 0%Z 2%Z 0%N]).
  { repeat constructor; intros g' Hc; [discriminate Hc| |discriminate Hc].
    injection Hc as <-. discriminate. }
  split; [exact H|].
  exact (added_guest_is_found Z.mul _ initial guest1 H).
Defined.

Lemma add_guest_replaces_witness :
  guest_id (mkGuest "g1" "Eve" "eve@example.org" "555-0102") = guest_id guest1 ∧
  result (get_guest "g1")
         (after (add_guest (mkGuest "g1" "Eve" "eve@example.org" "555-0102"))
                (after (add_guest guest1) (@initial Z)))
    = Returned (Some (mkGuest "g1" "Eve" "eve@example.org" "555-0102")).
Proof.
  split; [reflexivity|].
  exact (add_guest_replaces initial guest1
           (mkGuest "g1" "Eve" "eve@example.org" "555-0102") eq_refl).
Defined.

Lemma add_room_then_get_room_witness :
  room_store same_id_rooms !! 0%nat = Some (mkRoom "R1" SINGLE 100%Z AVAILABLE) ∧
  room_store same_id_rooms !! 1%nat = Some (mkRoom "R1" SUITE 400%Z AVAILABLE) ∧
  result (get_room "R1") (after (add_room 0) same_id_rooms) = Returned (Some 0%nat) ∧
  result (get_room "R1") (after (add_room 1) (after (add_room 0) same_id_rooms))
    = Returned (Some 1%nat).
Proof.
  do 2 (split; [reflexivity|]).
  exact (add_room_then_get_room same_id_rooms 0 (mkRoom "R1" SINGLE 100%Z AVAILABLE)
           1 (mkRoom "R1" SUITE 400%Z AVAILABLE) eq_refl eq_refl eq_refl).
Defined.

Lemma confirmed_reservation_keeps_room_witness :
  active (run Z.mul [NewRoom "R1" SINGLE 100%Z; BookRoom guest1 0 0%Z 2%Z 0%N]
              initial) "RES00000000" = Some res1 ∧
  res_status res1 = CONFIRMED ∧
  (status_of (run Z.mul [NewRoom "R1" SINGLE 100%Z; BookRoom guest1 0 0%Z 2%Z 0%N]
                  initial) (res_room res1) = Some BOOKED ∨
   status_of (run Z.mul [NewRoom "R1" SINGLE 100%Z; BookRoom guest1 0 0%Z 2%Z 0%N]
                  initial) (res_room res1) = Some OCCUPIED).
Proof.
  do 2 (split; [reflexivity|]).
  exact (confirmed_reservation_keeps_room Z.mul
           [NewRoom "R1" SINGLE 100%Z; BookRoom guest1 0 0%Z 2%Z 0%N]
           "RES00000000" res1 eq_refl eq_refl).
Defined.

Lemma index_entries_are_reservations_witness :
  reservations (hms (run Z.mul [NewRoom "R1" SINGLE 100%Z;
                                BookRoom guest1 0 0%Z 2%Z 0%N] initial))
    !! "RES00000000" = Some 0%nat ∧
  ∃ rv, res_store (run Z.mul [NewRoom "R1" SINGLE 100%Z;
                              BookRoom guest1 0 0%Z 2%Z 0%N] initial) !! 0%nat
          = Some rv ∧ res_id rv = "RES00000000".
Proof.
  split; [reflexivity|].
  exact (index_entries_are_reservations Z.mul
           [NewRoom "R1" SINGLE 100%Z; BookRoom guest1 0 0%Z 2%Z 0%N]
           "RES00000000" 0 eq_refl).
Defined.

Lemma colliding_booking_strands_room_witness :
  room_store two_rooms !! 0%nat = Some (mkRoom "R1" SINGLE 100%Z AVAILABLE) ∧
  room_store two_rooms !! 1%nat = Some (mkRoom "R2" DOUBLE 150%Z AVAILABLE) ∧
  0%nat ≠ 1%nat ∧
  _generate_reservation_id 7 = _generate_reservation_id 0 ∧
  let w2 := after (book_room guest2 1 3%Z 4%Z 7%N)
              (after (book_room guest1 0 0%Z 2%Z 0%N) two_rooms) in
  active w2 "RES00000000"
    = Some (mkReservation "RES00000000" guest2 1 3%Z 4%Z CONFIRMED) ∧
  status_of w2 0 = Some BOOKED ∧ confirmed_count w2 0 = 0%nat.
Proof.
  assert (Hne : 0%nat ≠ 1%nat) by discriminate.
  do 2 (split; [reflexivity|]). split; [exact Hne|]. split; [reflexivity|].
  destruct (colliding_booking_strands_room Z.mul
              [NewRoom "R1" SINGLE 100%Z; NewRoom "R2" DOUBLE 150%Z]
              guest1 guest2 0 1 (mkRoom "R1" SINGLE 100%Z AVAILABLE)
              (mkRoom "R2" DOUBLE 150%Z AVAILABLE) 0%Z 2%Z 3%Z 4%Z 0%N 7%N
              eq_refl eq_refl eq_refl eq_refl Hne eq_refl)
    as (_ & _ & Ha & Hs & Hc).
  split; [exact Ha|]. split; [exact Hs | exact Hc].
Defined.

Lemma one_caller_inside_at_a_time_witness :
  room_store one_room !! 0%nat = Some (room1 AVAILABLE) ∧
  room_status (room1 AVAILABLE) = AVAILABLE ∧
  Forall (λ q, req_room q = 0%nat) three_callers ∧
  let c := run_schedule [1; 0; 2; 1; 0]%nat (spawn one_room three_callers) in
  pc_at c 1 = Some SawAvailable ∧ hms_lock c = true ∧
  ∀ j p, pc_at c j = Some p → inside p = true → 1%nat = j.
Proof.
  assert (Hqs : Forall (λ q, req_room q = 0%nat) three_callers)
    by (repeat constructor).
  do 2 (split; [reflexivity|]). split; [exact Hqs|].
  destruct (one_caller_inside_at_a_time one_room 0 (room1 AVAILABLE) three_callers
              [1; 0; 2; 1; 0]%nat eq_refl eq_refl Hqs) as (Hmx & Hlk & _).
  split; [reflexivity|]. split; [exact (Hlk 1%nat SawAvailable eq_refl eq_refl)|].
  intros j p Hj Hin. exact (Hmx 1%nat j SawAvailable p eq_refl Hj eq_refl Hin).
Defined.

Lemma reservation_id_eq_iff_witness :
  top32 (5 * 2 ^ 96 + 123456789) = top32 (5 * 2 ^ 96) ∧
  _generate_reservation_id (5 * 2 ^ 96 + 123456789)
    = _generate_reservation_id (5 * 2 ^ 96).
Proof.
  split; [reflexivity|].
  destruct (reservation_id_eq_iff (5 * 2 ^ 96 + 123456789) (5 * 2 ^ 96))
    as [_ H].
  exact (H eq_refl).
Defined.
